(** * ShowGo: the authentication modal and the backend authorization contract

    A shallow embedding of

    - [src/components/AuthModal.tsx]: the form state of the modal, its
      client-side validation, the submission handler with its mapping of
      remote errors to UI errors, mode switching and the reset effect;
    - [supabase/migrations/20250808054401_rough_darkness.sql] and
      [supabase/migrations/20250808054800_sparkling_wildflower.sql]: the
      profile-creation trigger and the row-level-security policies of the
      [registrations] and [user_profiles] tables.

    JavaScript strings are sequences of UTF-16 code units; they are
    modelled as [list N].  The component's [useState] cells form a record
    that every handler transforms; what a handler does to the outside world
    (a remote call, a timer, a call of [onClose]) is made explicit in the
    [World] the component runs in. *)

From Stdlib Require Import List Bool Arith NArith Lia String Ascii.
Import ListNotations.

(* ================================================================= *)
(** ** JavaScript strings *)

Module Js.

(** A UTF-16 code unit. *)
Definition unit16 := N.

Definition jsstring := list unit16.

(** Source literals are ASCII; [lit] gives their code units. *)
Fixpoint lit (s : string) : jsstring :=
  match s with
  | EmptyString => []
  | String a r => N_of_ascii a :: lit r
  end.

Fixpoint eqb (a b : jsstring) : bool :=
  match a, b with
  | [], [] => true
  | x :: a', y :: b' => N.eqb x y && eqb a' b'
  | _, _ => false
  end.

(** ECMAScript WhiteSpace and LineTerminator code points: what
    [String.prototype.trim] strips and what [\s] matches in a regular
    expression without the [u] flag. *)
Definition is_space (c : unit16) : bool :=
  (N.leb 9 c && N.leb c 13)            (* TAB LF VT FF CR *)
  || N.eqb c 32                        (* SPACE *)
  || N.eqb c 160                       (* NO-BREAK SPACE *)
  || N.eqb c 5760                      (* U+1680 *)
  || (N.leb 8192 c && N.leb c 8202)    (* U+2000 .. U+200A *)
  || N.eqb c 8232 || N.eqb c 8233      (* LINE / PARAGRAPH SEPARATOR *)
  || N.eqb c 8239                      (* U+202F *)
  || N.eqb c 8287                      (* U+205F *)
  || N.eqb c 12288                     (* U+3000 *)
  || N.eqb c 65279.                    (* U+FEFF *)

Fixpoint trimStart (s : jsstring) : jsstring :=
  match s with
  | [] => []
  | c :: r => if is_space c then trimStart r else s
  end.

Definition trimEnd (s : jsstring) : jsstring := rev (trimStart (rev s)).

(** [s.trim()] *)
Definition trim (s : jsstring) : jsstring := trimEnd (trimStart s).

(** Truthiness of a string: only the empty string is falsy. *)
Definition truthy (s : jsstring) : bool :=
  match s with [] => false | _ :: _ => true end.

(** Truthiness of [string | undefined]. *)
Definition truthy_opt (o : option jsstring) : bool :=
  match o with Some s => truthy s | None => false end.

Fixpoint startsWith (p s : jsstring) : bool :=
  match p, s with
  | [], _ => true
  | _ :: _, [] => false
  | x :: p', y :: s' => N.eqb x y && startsWith p' s'
  end.

(** [s.includes(p)]: [p] occurs in [s] as a contiguous run. *)
Fixpoint includes (s p : jsstring) : bool :=
  startsWith p s ||
  match s with
  | [] => false
  | _ :: r => includes r p
  end.

(** [m?.includes(p)] used as a condition: [undefined] is falsy. *)
Definition includes_opt (m : option jsstring) (p : jsstring) : bool :=
  match m with Some s => includes s p | None => false end.

(** [a || b] on [string | undefined] with a string default. *)
Definition or_else (m : option jsstring) (d : jsstring) : jsstring :=
  match m with
  | Some s => if truthy s then s else d
  | None => d
  end.

End Js.

Arguments Js.lit s%_string_scope.

Abbreviation jsstring := Js.jsstring.
Abbreviation js := Js.lit.

(* ================================================================= *)
(** ** Regular expressions

    The one regular expression of the component has neither back
    references nor look-around, so [RegExp.prototype.test] on a pattern
    anchored by [^] and [$] decides membership of the whole string in the
    pattern's language.  [matches] decides it with derivatives. *)

Module Regex.

Inductive re : Type :=
| Void                                   (* matches nothing *)
| Eps                                    (* the empty string *)
| Class (p : Js.unit16 -> bool)          (* one code unit of a class *)
| Cat (a b : re)
| Alt (a b : re)
| Star (a : re).

(** [a+] *)
Definition Plus (a : re) : re := Cat a (Star a).

Fixpoint nullable (r : re) : bool :=
  match r with
  | Void => false
  | Eps => true
  | Class _ => false
  | Cat a b => nullable a && nullable b
  | Alt a b => nullable a || nullable b
  | Star _ => true
  end.

Fixpoint deriv (c : Js.unit16) (r : re) : re :=
  match r with
  | Void => Void
  | Eps => Void
  | Class p => if p c then Eps else Void
  | Cat a b =>
      if nullable a then Alt (Cat (deriv c a) b) (deriv c b)
      else Cat (deriv c a) b
  | Alt a b => Alt (deriv c a) (deriv c b)
  | Star a => Cat (deriv c a) (Star a)
  end.

(** [/^r$/.test(s)] *)
Fixpoint matches (r : re) (s : jsstring) : bool :=
  match s with
  | [] => nullable r
  | c :: s' => matches (deriv c r) s'
  end.

(** The language of a pattern, as a relation. *)
Inductive lang : re -> jsstring -> Prop :=
| lang_eps : lang Eps []
| lang_class p c : p c = true -> lang (Class p) [c]
| lang_cat a b u v : lang a u -> lang b v -> lang (Cat a b) (u ++ v)
| lang_alt_l a b u : lang a u -> lang (Alt a b) u
| lang_alt_r a b u : lang b u -> lang (Alt a b) u
| lang_star_nil a : lang (Star a) []
| lang_star_cons a u v : lang a u -> lang (Star a) v -> lang (Star a) (u ++ v).

End Regex.

(* ================================================================= *)
(** ** The authentication modal ([src/components/AuthModal.tsx]) *)

Module AuthModal.

Inductive Mode : Type := signin | signup.

Definition Mode_eqb (a b : Mode) : bool :=
  match a, b with
  | signin, signin | signup, signup => true
  | _, _ => false
  end.

(** The [name] attributes of the four inputs of the form. *)
Inductive FieldName : Type :=
| n_email | n_password | n_fullName | n_confirmPassword.

(** [interface FormData] *)
Module FormData.

Record t : Type := mk {
  email : jsstring;
  password : jsstring;
  fullName : jsstring;
  confirmPassword : jsstring
}.

(** The initial value of the [formData] cell. *)
Definition blank : t := mk [] [] [] [].

Definition get (d : t) (name : FieldName) : jsstring :=
  match name with
  | n_email => email d
  | n_password => password d
  | n_fullName => fullName d
  | n_confirmPassword => confirmPassword d
  end.

(** [{ ...prev, [name]: value }] *)
Definition set (prev : t) (name : FieldName) (value : jsstring) : t :=
  match name with
  | n_email => mk value (password prev) (fullName prev) (confirmPassword prev)
  | n_password => mk (email prev) value (fullName prev) (confirmPassword prev)
  | n_fullName => mk (email prev) (password prev) value (confirmPassword prev)
  | n_confirmPassword => mk (email prev) (password prev) (fullName prev) value
  end.

End FormData.

(** [interface FormErrors]: every key is optional; [None] stands for a key
    that is missing or holds [undefined] (the component only ever tests a
    key for truthiness or prints it, which does not tell the two apart). *)
Module FormErrors.

Record t : Type := mk {
  email : option jsstring;
  password : option jsstring;
  fullName : option jsstring;
  confirmPassword : option jsstring;
  general : option jsstring
}.

(** [{}] *)
Definition empty : t := mk None None None None None.

Definition get (e : t) (name : FieldName) : option jsstring :=
  match name with
  | n_email => email e
  | n_password => password e
  | n_fullName => fullName e
  | n_confirmPassword => confirmPassword e
  end.

(** [{ ...prev, [name]: v }] *)
Definition set (prev : t) (name : FieldName) (v : option jsstring) : t :=
  match name with
  | n_email =>
      mk v (password prev) (fullName prev) (confirmPassword prev) (general prev)
  | n_password =>
      mk (email prev) v (fullName prev) (confirmPassword prev) (general prev)
  | n_fullName =>
      mk (email prev) (password prev) v (confirmPassword prev) (general prev)
  | n_confirmPassword =>
      mk (email prev) (password prev) (fullName prev) v (general prev)
  end.

(** [{ general: m }], [{ email: m }] and [{ password: m }] *)
Definition only_general (m : jsstring) : t := mk None None None None (Some m).
Definition only_email (m : jsstring) : t := mk (Some m) None None None None.
Definition only_password (m : jsstring) : t := mk None (Some m) None None None.

Definition key (o : option jsstring) : nat :=
  match o with Some _ => 1 | None => 0 end.

(** [Object.keys(e).length] of an object built by assigning strings to keys
    of [{}]. *)
Definition keys_length (e : t) : nat :=
  key (email e) + key (password e) + key (fullName e)
  + key (confirmPassword e) + key (general e).

End FormErrors.

(** The component's props; [onClose] is a callback of the parent, its calls
    are counted in the [World] below. *)
Record Props : Type := mkProps {
  isOpen : bool;
  initialMode : Mode
}.

(** The [useState] cells. *)
Record State : Type := mkState {
  mode : Mode;
  formData : FormData.t;
  errors : FormErrors.t;
  isSubmitting : bool;
  isSuccess : bool;
  showPassword : bool;
  showConfirmPassword : bool
}.

(** The cells at mount. *)
Definition initialState (p : Props) : State :=
  mkState (initialMode p) FormData.blank FormErrors.empty false false false false.

Definition setMode (m : Mode) (s : State) : State :=
  mkState m (formData s) (errors s) (isSubmitting s) (isSuccess s)
    (showPassword s) (showConfirmPassword s).
Definition setFormData (d : FormData.t) (s : State) : State :=
  mkState (mode s) d (errors s) (isSubmitting s) (isSuccess s)
    (showPassword s) (showConfirmPassword s).
Definition setErrors (e : FormErrors.t) (s : State) : State :=
  mkState (mode s) (formData s) e (isSubmitting s) (isSuccess s)
    (showPassword s) (showConfirmPassword s).
Definition setIsSubmitting (b : bool) (s : State) : State :=
  mkState (mode s) (formData s) (errors s) b (isSuccess s)
    (showPassword s) (showConfirmPassword s).
Definition setIsSuccess (b : bool) (s : State) : State :=
  mkState (mode s) (formData s) (errors s) (isSubmitting s) b
    (showPassword s) (showConfirmPassword s).
Definition setShowPassword (b : bool) (s : State) : State :=
  mkState (mode s) (formData s) (errors s) (isSubmitting s) (isSuccess s)
    b (showConfirmPassword s).
Definition setShowConfirmPassword (b : bool) (s : State) : State :=
  mkState (mode s) (formData s) (errors s) (isSubmitting s) (isSuccess s)
    (showPassword s) b.

(** The effect "Reset form when modal closes or mode changes"; React runs
    it after mount and after every render in which [isOpen] or
    [initialMode] changed. *)
Definition resetEffect (p : Props) (s : State) : State :=
  if negb (isOpen p) then
    setMode (initialMode p)
      (setIsSuccess false
        (setErrors FormErrors.empty
          (setFormData (FormData.mk [] [] [] []) s)))
  else s.

(** [[^\s@]] *)
Definition not_space_nor_at (c : Js.unit16) : bool :=
  negb (Js.is_space c || N.eqb c 64).

(** [/^[^\s@]+@[^\s@]+\.[^\s@]+$/] *)
Definition emailRegex : Regex.re :=
  Regex.Cat (Regex.Plus (Regex.Class not_space_nor_at))
    (Regex.Cat (Regex.Class (N.eqb 64))
      (Regex.Cat (Regex.Plus (Regex.Class not_space_nor_at))
        (Regex.Cat (Regex.Class (N.eqb 46))
          (Regex.Plus (Regex.Class not_space_nor_at))))).

(** The object [newErrors] that [validateForm] builds. *)
Definition newErrors (m : Mode) (d : FormData.t) : FormErrors.t :=
  let e := FormErrors.empty in
  (* Email validation *)
  let e :=
    if negb (Js.truthy (Js.trim (FormData.email d))) then
      FormErrors.set e n_email (Some (js "Email is required"))
    else if negb (Regex.matches emailRegex (FormData.email d)) then
      FormErrors.set e n_email (Some (js "Please enter a valid email address"))
    else e in
  (* Password validation *)
  let e :=
    if negb (Js.truthy (FormData.password d)) then
      FormErrors.set e n_password (Some (js "Password is required"))
    else if Nat.ltb (List.length (FormData.password d)) 6 then
      FormErrors.set e n_password
        (Some (js "Password must be at least 6 characters"))
    else e in
  (* Sign up specific validation *)
  match m with
  | signup =>
      let e :=
        if negb (Js.truthy (Js.trim (FormData.fullName d))) then
          FormErrors.set e n_fullName (Some (js "Full name is required"))
        else if Nat.ltb (List.length (FormData.fullName d)) 2 then
          FormErrors.set e n_fullName
            (Some (js "Full name must be at least 2 characters"))
        else e in
      if negb (Js.truthy (FormData.confirmPassword d)) then
        FormErrors.set e n_confirmPassword
          (Some (js "Please confirm your password"))
      else if negb (Js.eqb (FormData.password d) (FormData.confirmPassword d))
      then FormErrors.set e n_confirmPassword (Some (js "Passwords do not match"))
      else e
  | signin => e
  end.

(** [validateForm]: stores [newErrors] and tells whether it has no key. *)
Definition validateForm (s : State) : State * bool :=
  let e := newErrors (mode s) (formData s) in
  (setErrors e s, Nat.eqb (FormErrors.keys_length e) 0).

(** [handleInputChange], for the input named [name] holding [value]. *)
Definition handleInputChange (name : FieldName) (value : jsstring)
    (s : State) : State :=
  let s1 := setFormData (FormData.set (formData s) name value) s in
  (* Clear error when user starts typing *)
  if Js.truthy_opt (FormErrors.get (errors s) name) then
    setErrors (FormErrors.set (errors s1) name None) s1
  else s1.

(** The operations of the auth context. *)
Inductive RemoteCall : Type :=
| signIn (email password : jsstring)
| signUp (email password fullName : jsstring).

(** [result.error]: an object with an optional [message]. *)
Record AuthError : Type := mkAuthError { message : option jsstring }.

(** How the awaited call settles: it resolves to [{ error? }] or throws. *)
Inductive Settled : Type :=
| Resolved (error : option AuthError)
| Thrown.

(** [handleSubmit] up to the [await]: the new cells and the remote call
    made, if any. *)
Definition handleSubmit_begin (s : State) : State * option RemoteCall :=
  let (s1, ok) := validateForm s in
  if negb ok then (s1, None)
  else
    let s2 := setErrors FormErrors.empty (setIsSubmitting true s1) in
    let d := formData s in
    (s2,
     Some match mode s with
          | signup =>
              signUp (FormData.email d) (FormData.password d) (FormData.fullName d)
          | signin => signIn (FormData.email d) (FormData.password d)
          end).

(** The chain of [if]/[else if] over [result.error.message]. *)
Definition errorsOf (err : AuthError) : FormErrors.t :=
  let m := message err in
  if Js.includes_opt m (js "Invalid login credentials") then
    FormErrors.only_general (js "Invalid email or password")
  else if Js.includes_opt m (js "User already registered")
          || Js.includes_opt m (js "already been registered") then
    FormErrors.only_email (js "An account with this email already exists")
  else if Js.includes_opt m (js "Password should be at least") then
    FormErrors.only_password (js "Password must be at least 6 characters long")
  else if Js.includes_opt m (js "Unable to validate email address") then
    FormErrors.only_email (js "Please enter a valid email address")
  else if Js.includes_opt m (js "Email not confirmed") then
    FormErrors.only_general
      (js "Please check your email and confirm your account before signing in")
  else
    FormErrors.only_general
      (Js.or_else m (js "An unexpected error occurred. Please try again.")).

(** [handleSubmit] from the [await] on: the new cells and the delay of the
    timer set to call [onClose], if one is set. *)
Definition handleSubmit_settle (r : Settled) (s : State) : State * option N :=
  let (s1, timer) :=
    match r with
    | Resolved (Some err) => (setErrors (errorsOf err) s, None)
    | Resolved None => (setIsSuccess true s, Some 1500%N)
    | Thrown =>
        (setErrors
           (FormErrors.only_general
              (js "Connection error. Please check your internet and try again."))
           s, None)
    end in
  (* finally *)
  (setIsSubmitting false s1, timer).

(** [switchMode] *)
Definition switchMode (s : State) : State :=
  let s1 := setMode (match mode s with signin => signup | signup => signin end) s in
  let s2 := setErrors FormErrors.empty s1 in
  setFormData (FormData.mk (FormData.email (formData s)) [] [] []) s2.

(** The call [handleSubmit] makes once validation has passed. *)
Definition call_of (s : State) : RemoteCall :=
  match mode s with
  | signup =>
      signUp (FormData.email (formData s)) (FormData.password (formData s))
        (FormData.fullName (formData s))
  | signin =>
      signIn (FormData.email (formData s)) (FormData.password (formData s))
  end.

(** Equality of input names. *)
Definition FieldName_eqb (a b : FieldName) : bool :=
  match a, b with
  | n_email, n_email | n_password, n_password
  | n_fullName, n_fullName | n_confirmPassword, n_confirmPassword => true
  | _, _ => false
  end.

End AuthModal.

(* ================================================================= *)
(** ** The mounted component and its environment

    The parent supplies the props and receives the calls of [onClose]; the
    auth context receives the remote calls and settles them later; the
    browser keeps the timers.  An event is one thing that happens to the
    mounted component; [step] is [None] when the rendered tree offers no
    control for it. *)

Module Runtime.

Import AuthModal.

Record World : Type := mkWorld {
  props : Props;
  cells : State;
  pending : list RemoteCall;   (* awaited calls not settled yet, oldest first *)
  sent : list RemoteCall;      (* every remote call made so far *)
  clock : N;                   (* milliseconds since mount *)
  timers : list N;             (* due times of the [setTimeout] timers *)
  closeCalls : nat             (* how often [onClose] has been called *)
}.

(** What the component returns from its render. *)
Inductive View : Type :=
| Hidden                                            (* [return null] *)
| SuccessDisplay                                    (* [isSuccess ? ...] *)
| Form (submitDisabled : bool) (signupInputs : bool).

Definition render (p : Props) (s : State) : View :=
  if negb (isOpen p) then Hidden
  else if isSuccess s then SuccessDisplay
  else Form (isSubmitting s) (Mode_eqb (mode s) signup).

(** The full name and confirm-password inputs exist in signup mode only. *)
Definition input_rendered (signupInputs : bool) (name : FieldName) : bool :=
  match name with
  | n_email | n_password => true
  | n_fullName | n_confirmPassword => signupInputs
  end.

Inductive Event : Type :=
| ParentRenders (p : Props)     (* the parent passes props *)
| KeyEscape                     (* a [keydown] of Escape on the document *)
| ClickBackdrop
| ClickClose
| Change (name : FieldName) (value : jsstring)
| ClickShowPassword
| ClickShowConfirmPassword
| ClickSwitchMode
| SubmitForm
| CallSettles (r : Settled)     (* the oldest awaited call settles *)
| TimePasses (d : N)
| TimerFires.                   (* the oldest timer, once it is due *)

Definition Props_eqb (p q : Props) : bool :=
  Bool.eqb (isOpen p) (isOpen q) && Mode_eqb (initialMode p) (initialMode q).

Definition withCells (s : State) (w : World) : World :=
  mkWorld (props w) s (pending w) (sent w) (clock w) (timers w) (closeCalls w).

(** A call of the [onClose] prop. *)
Definition onClose (w : World) : World :=
  mkWorld (props w) (cells w) (pending w) (sent w) (clock w) (timers w)
    (S (closeCalls w)).

Definition mount (p : Props) : World :=
  mkWorld p (resetEffect p (initialState p)) [] [] 0%N [] 0.

Definition step (w : World) (e : Event) : option World :=
  let s := cells w in
  match e with
  | ParentRenders p =>
      if Props_eqb p (props w) then Some w
      else Some (mkWorld p (resetEffect p s) (pending w) (sent w) (clock w)
                   (timers w) (closeCalls w))
  | KeyEscape =>
      (* the listener is installed while [isOpen] *)
      if isOpen (props w) then Some (onClose w) else Some w
  | ClickBackdrop | ClickClose =>
      match render (props w) s with
      | Hidden => None
      | _ => Some (onClose w)
      end
  | Change name value =>
      match render (props w) s with
      | Form _ su =>
          if input_rendered su name
          then Some (withCells (handleInputChange name value s) w)
          else None
      | _ => None
      end
  | ClickShowPassword =>
      match render (props w) s with
      | Form _ _ => Some (withCells (setShowPassword (negb (showPassword s)) s) w)
      | _ => None
      end
  | ClickShowConfirmPassword =>
      match render (props w) s with
      | Form _ true =>
          Some (withCells
                  (setShowConfirmPassword (negb (showConfirmPassword s)) s) w)
      | _ => None
      end
  | ClickSwitchMode =>
      match render (props w) s with
      | Form _ _ => Some (withCells (switchMode s) w)
      | _ => None
      end
  | SubmitForm =>
      match render (props w) s with
      | Form false _ =>
          let (s', call) := handleSubmit_begin s in
          let calls := match call with Some c => [c] | None => [] end in
          Some (mkWorld (props w) s' (pending w ++ calls) (sent w ++ calls)
                  (clock w) (timers w) (closeCalls w))
      | _ => None                 (* no form, or [disabled={isSubmitting}] *)
      end
  | CallSettles r =>
      match pending w with
      | [] => None
      | _ :: rest =>
          let (s', timer) := handleSubmit_settle r s in
          let due := match timer with
                     | Some d => [(clock w + d)%N]
                     | None => []
                     end in
          Some (mkWorld (props w) s' rest (sent w) (clock w)
                  (timers w ++ due) (closeCalls w))
      end
  | TimePasses d =>
      Some (mkWorld (props w) s (pending w) (sent w) (clock w + d)%N
              (timers w) (closeCalls w))
  | TimerFires =>
      match timers w with
      | [] => None
      | due :: rest =>
          if N.leb due (clock w)
          then Some (onClose (mkWorld (props w) s (pending w) (sent w)
                                (clock w) rest (closeCalls w)))
          else None
      end
  end.

Fixpoint run (w : World) (es : list Event) : option World :=
  match es with
  | [] => Some w
  | e :: es' =>
      match step w e with
      | Some w' => run w' es'
      | None => None
      end
  end.

(** The worlds a mounted component can be in. *)
Inductive reachable : World -> Prop :=
| reachable_mount p : reachable (mount p)
| reachable_step w e w' :
    reachable w -> step w e = Some w' -> reachable w'.

(** A successful settlement: the call resolved without [error]. *)
Definition is_success (e : Event) : bool :=
  match e with
  | CallSettles (Resolved None) => true
  | _ => false
  end.

(** The parent closes the modal: it passes [isOpen = false]. *)
Definition is_close (e : Event) : bool :=
  match e with
  | ParentRenders p => negb (isOpen p)
  | _ => false
  end.

(** The events of one life of the modal: none of them closes it. *)
Definition one_lifecycle (es : list Event) : bool :=
  forallb (fun e => negb (is_close e)) es.

Definition successes (es : list Event) : nat :=
  List.length (filter is_success es).

(** What ties the submitting flag to the calls in flight, and the success
    flag to their absence. *)
Definition Inv (w : World) : Prop :=
  List.length (pending w) = (if isSubmitting (cells w) then 1 else 0)
  /\ (isSuccess (cells w) = true -> pending w = []).

(** A sign-in form filled with valid input and submitted: the call is
    awaited. *)
Definition world_in_flight : World :=
  mkWorld (mkProps true signin)
    (mkState signin (FormData.mk (js "a@b.co") (js "abcdef") [] [])
       FormErrors.empty true false false false)
    [signIn (js "a@b.co") (js "abcdef")]
    [signIn (js "a@b.co") (js "abcdef")]
    0%N [] 0.

(** A modal whose password was revealed before it is closed. *)
Definition world_revealed : World :=
  mkWorld (mkProps true signin)
    (mkState signin (FormData.mk [] (js "hunter12") [] [])
       FormErrors.empty false false true false)
    [] [] 0%N [] 0.

End Runtime.

(* ================================================================= *)
(** ** The backend ([supabase/migrations/*.sql]) *)

Module Sql.

Local Open Scope string_scope.

Definition uuid := N.
Definition text := string.

(** *** Three-valued logic: [None] is SQL's NULL *)

Definition tri := option bool.

Definition sql_or (a b : tri) : tri :=
  match a, b with
  | Some true, _ | _, Some true => Some true
  | Some false, Some false => Some false
  | _, _ => None
  end.

Definition sql_and (a b : tri) : tri :=
  match a, b with
  | Some false, _ | _, Some false => Some false
  | Some true, Some true => Some true
  | _, _ => None
  end.

Definition eq_uuid (a b : option uuid) : tri :=
  match a, b with
  | Some x, Some y => Some (N.eqb x y)
  | _, _ => None
  end.

Definition eq_text (a b : option text) : tri :=
  match a, b with
  | Some x, Some y => Some (String.eqb x y)
  | _, _ => None
  end.

(** [a IN (x, y, ...)] and [a = ANY(ARRAY[x, y, ...])]: the disjunction of
    the comparisons. *)
Fixpoint in_list (a : option text) (l : list text) : tri :=
  match l with
  | [] => Some false
  | x :: l' => sql_or (eq_text a (Some x)) (in_list a l')
  end.

(** A row passes a policy when the expression is true; false and NULL both
    reject it. *)
Definition is_true (t : tri) : bool :=
  match t with Some true => true | _ => false end.

(** [COALESCE(a, d)] *)
Definition coalesce (a : option text) (d : text) : text :=
  match a with Some x => x | None => d end.

(** *** Tables *)

(** A [jsonb] object, as far as [->>] reads it: keys with the text of their
    value, [None] for a JSON null. *)
Definition jsonb := list (text * option text).

(** [j ->> k] *)
Definition json_text (j : option jsonb) (k : text) : option text :=
  match j with
  | None => None
  | Some kv =>
      match find (fun p => String.eqb (fst p) k) kv with
      | Some (_, v) => v
      | None => None
      end
  end.

(** A row of [auth.users], with the columns the migrations read. *)
Record AuthUser : Type := mkAuthUser {
  au_id : uuid;
  au_email : option text;
  raw_user_meta_data : option jsonb
}.

(** A row of [user_profiles], with the columns the migrations write or read
    ([avatar_url] and the two time stamps take their defaults). *)
Record Profile : Type := mkProfile {
  id : uuid;
  full_name : option text;
  email : option text;
  role : option text
}.

(** A row of [registrations], with the columns the policies read. *)
Record Registration : Type := mkRegistration {
  user_id : option uuid;
  user_email : option text
}.

Inductive SqlError : Type :=
| unique_violation
| foreign_key_violation
| check_violation
| infinite_recursion          (* in a policy for a relation *)
| insufficient_privilege
| other_error (state : text).

(** The SQLSTATE of an error. *)
Definition sqlstate (e : SqlError) : text :=
  match e with
  | unique_violation => "23505"
  | foreign_key_violation => "23503"
  | check_violation => "23514"
  | infinite_recursion => "42P17"
  | insufficient_privilege => "42501"
  | other_error state => state
  end.

(** [WHEN OTHERS] traps every error but QUERY_CANCELED (57014) and
    ASSERT_FAILURE (P0004). *)
Definition trapped_by_others (e : SqlError) : bool :=
  negb (String.eqb (sqlstate e) "57014" || String.eqb (sqlstate e) "P0004").

(** A [RAISE WARNING] of the trigger: the format and its two arguments. *)
Record Warning : Type := mkWarning {
  w_format : text;
  w_id : uuid;
  w_sqlerrm : SqlError
}.

Record Db : Type := mkDb {
  auth_users : list AuthUser;
  user_profiles : list Profile;
  registrations : list Registration;
  server_log : list Warning
}.

(** The two migrations, in the order of their time stamps. *)
Inductive Migration : Type :=
| m20250808054401_rough_darkness
| m20250808054800_sparkling_wildflower.

(** *** The profile-creation trigger *)

(** [INSERT INTO public.user_profiles] under the constraints of the table
    as the README gives them: [id] is the primary key and references
    [auth.users(id)], [role] is checked to be ['user'] or ['admin']. *)
Definition insert_profile (db : Db) (row : Profile) : SqlError + Db :=
  if existsb (fun p => N.eqb (id p) (id row)) (user_profiles db) then
    inl unique_violation
  else if negb (existsb (fun u => N.eqb (au_id u) (id row)) (auth_users db)) then
    inl foreign_key_violation
  else if negb (match role row with
                | Some r => String.eqb r "user" || String.eqb r "admin"
                | None => true
                end) then
    inl check_violation
  else
    inr (mkDb (auth_users db) (user_profiles db ++ [row])%list (registrations db)
           (server_log db)).

Definition raise_warning (w : Warning) (db : Db) : Db :=
  mkDb (auth_users db) (user_profiles db) (registrations db)
    (server_log db ++ [w])%list.

(** The text of the warning is all the two migrations differ in. *)
Definition warning_format (v : Migration) : text :=
  match v with
  | m20250808054401_rough_darkness => "Failed to create user profile for %: %"
  | m20250808054800_sparkling_wildflower =>
      "Could not create user profile for %: %"
  end.

(** What a trigger function call ends in. *)
Inductive TriggerResult : Type :=
| Return (NEW : AuthUser)
| Raise (e : SqlError).

Section Trigger.

(** The [INSERT] statement of the function body, as the database runs it. *)
Variable insert_into_user_profiles : Db -> Profile -> SqlError + Db.

(** [create_user_profile()]: the block with its [EXCEPTION WHEN OTHERS]
    handler; entering the handler undoes what the block did, and an error
    the handler does not trap leaves the function as it is.  The function
    is [SECURITY DEFINER]: its [INSERT] runs as the owner of the table and
    is not subject to the table's row-level security. *)
Definition create_user_profile (v : Migration) (NEW : AuthUser) (db : Db)
    : Db * TriggerResult :=
  match
    insert_into_user_profiles db
      (mkProfile (au_id NEW)
         (Some (coalesce (json_text (raw_user_meta_data NEW) "full_name") ""))
         (au_email NEW)
         (Some "user"))
  with
  | inr db' => (db', Return NEW)
  | inl e =>
      if trapped_by_others e then
        (* Log the error but don't fail the user creation *)
        (raise_warning (mkWarning (warning_format v) (au_id NEW) e) db,
         Return NEW)
      else (db, Raise e)
  end.

(** An account row is created: the row is stored and
    [create_user_profile_trigger] ([AFTER INSERT ... FOR EACH ROW]) runs the
    function once for it; an error raised by it would abort the insert. *)
Definition insert_auth_user (v : Migration) (u : AuthUser) (db : Db)
    : SqlError + Db :=
  let db1 := mkDb (auth_users db ++ [u])%list (user_profiles db) (registrations db)
               (server_log db) in
  match create_user_profile v u db1 with
  | (db2, Return _) => inr db2
  | (_, Raise e) => inl e
  end.

End Trigger.

(** *** Row-level security of [registrations] *)

Inductive Command : Type := SELECT | INSERT | UPDATE | DELETE.

Definition Command_eqb (a b : Command) : bool :=
  match a, b with
  | SELECT, SELECT | INSERT, INSERT | UPDATE, UPDATE | DELETE, DELETE => true
  | _, _ => false
  end.

Inductive PgRole : Type := anon | authenticated.

Definition PgRole_eqb (a b : PgRole) : bool :=
  match a, b with
  | anon, anon | authenticated, authenticated => true
  | _, _ => false
  end.

(** Who runs the query. *)
Record Session : Type := mkSession {
  pg_role : PgRole;
  uid : option uuid;             (* [auth.uid()] *)
  jwt_role : option text         (* [auth.jwt() ->> 'role'] *)
}.

(** The tables a policy expression selects from. *)
Inductive Table : Type := t_user_profiles | t_auth_users.

Definition Table_eqb (a b : Table) : bool :=
  match a, b with
  | t_user_profiles, t_user_profiles | t_auth_users, t_auth_users => true
  | _, _ => false
  end.

(** What the sub-selects of the policy expressions return, once they have
    been evaluated:
    - [profile_email]:
      [(SELECT email FROM user_profiles WHERE id = auth.uid())];
    - [profile_role]:
      [(SELECT role FROM user_profiles WHERE id = auth.uid())];
    - [admin_profile]:
      [EXISTS (SELECT 1 FROM user_profiles WHERE id = auth.uid() AND role = 'admin')];
    - [account_email]:
      [(SELECT email FROM auth.users WHERE id = auth.uid())]. *)
Record Lookups : Type := mkLookups {
  profile_email : option text;
  profile_role : option text;
  admin_profile : bool;
  account_email : option text
}.

(** A [USING] or [WITH CHECK] expression: the tables its sub-selects read,
    and its value on a row once the sub-selects have been answered. *)
Record Qual : Type := mkQual {
  reads : list Table;
  holds : Session -> Lookups -> Registration -> tri
}.

Record Policy : Type := mkPolicy {
  polname : text;
  polcmd : Command;
  polrole : PgRole;              (* [TO ...] *)
  polexpr : Qual                 (* [USING] / [WITH CHECK] *)
}.

Definition reserved_admins : list text :=
  ["admin@showgo.com"; "support@showgo.com"].

(** The expression of the four "Users can ... their own registrations"
    policies of 20250808054800. *)
Definition own_054800 : Qual :=
  mkQual [t_user_profiles]
    (fun s L r =>
       sql_or (eq_uuid (uid s) (user_id r))
              (eq_text (user_email r) (profile_email L))).

(** The expression of "Admins can view all registrations" of 20250808054800. *)
Definition admin_054800 : Qual :=
  mkQual [t_user_profiles]
    (fun s L r =>
       sql_or (sql_or (Some (admin_profile L))
                      (in_list (profile_email L) reserved_admins))
              (eq_text (jwt_role s) (Some "admin"))).

(** The same two of 20250808054401. *)
Definition own_054401 : Qual :=
  mkQual [t_auth_users]
    (fun s L r =>
       sql_or (eq_uuid (uid s) (user_id r))
              (eq_text (user_email r) (account_email L))).

Definition admin_054401 : Qual :=
  mkQual [t_auth_users; t_user_profiles]
    (fun s L r =>
       sql_or (in_list (account_email L) reserved_admins)
              (eq_text (profile_role L) (Some "admin"))).

(** The statements on the policies of [registrations]. *)
Inductive Statement : Type :=
| DROP_POLICY_IF_EXISTS (name : text)
| CREATE_POLICY (p : Policy).

Definition statements (v : Migration) : list Statement :=
  match v with
  | m20250808054401_rough_darkness =>
      [ DROP_POLICY_IF_EXISTS "Users can view their own registrations";
        DROP_POLICY_IF_EXISTS "Users can insert their own registrations";
        DROP_POLICY_IF_EXISTS "Users can update their own registrations";
        DROP_POLICY_IF_EXISTS "Users can delete their own registrations";
        CREATE_POLICY (mkPolicy "Users can view their own registrations"
                         SELECT authenticated own_054401);
        CREATE_POLICY (mkPolicy "Users can insert their own registrations"
                         INSERT authenticated own_054401);
        CREATE_POLICY (mkPolicy "Users can update their own registrations"
                         UPDATE authenticated own_054401);
        CREATE_POLICY (mkPolicy "Users can delete their own registrations"
                         DELETE authenticated own_054401);
        CREATE_POLICY (mkPolicy "Admins can view all registrations"
                         SELECT authenticated admin_054401) ]
  | m20250808054800_sparkling_wildflower =>
      [ DROP_POLICY_IF_EXISTS "Users can view their own registrations";
        DROP_POLICY_IF_EXISTS "Users can insert their own registrations";
        DROP_POLICY_IF_EXISTS "Users can update their own registrations";
        DROP_POLICY_IF_EXISTS "Users can delete their own registrations";
        DROP_POLICY_IF_EXISTS "Admins can view all registrations";
        CREATE_POLICY (mkPolicy "Users can view their own registrations"
                         SELECT authenticated own_054800);
        CREATE_POLICY (mkPolicy "Users can insert their own registrations"
                         INSERT authenticated own_054800);
        CREATE_POLICY (mkPolicy "Users can update their own registrations"
                         UPDATE authenticated own_054800);
        CREATE_POLICY (mkPolicy "Users can delete their own registrations"
                         DELETE authenticated own_054800);
        CREATE_POLICY (mkPolicy "Admins can view all registrations"
                         SELECT authenticated admin_054800) ]
  end.

(** One statement on the catalog of policies; creating a policy under a
    name in use is an error. *)
Definition exec (cat : list Policy) (st : Statement) : option (list Policy) :=
  match st with
  | DROP_POLICY_IF_EXISTS n =>
      Some (filter (fun p => negb (String.eqb (polname p) n)) cat)
  | CREATE_POLICY p =>
      if existsb (fun q => String.eqb (polname q) (polname p)) cat then None
      else Some (cat ++ [p])%list
  end.

Fixpoint exec_all (cat : list Policy) (sts : list Statement)
    : option (list Policy) :=
  match sts with
  | [] => Some cat
  | st :: sts' =>
      match exec cat st with
      | Some cat' => exec_all cat' sts'
      | None => None
      end
  end.

(** Both migrations applied, oldest first, to a table without policies. *)
Definition deployed_policies : option (list Policy) :=
  match exec_all [] (statements m20250808054401_rough_darkness) with
  | Some cat => exec_all cat (statements m20250808054800_sparkling_wildflower)
  | None => None
  end.

(** *** Row-level security of [user_profiles] *)

(** The two expressions of the policies of [user_profiles]. *)
Inductive ProfileQual : Type :=
| uid_is_id                (* [auth.uid() = id] *)
| admin_profile_exists.    (* [EXISTS (SELECT 1 FROM user_profiles
                               WHERE id = auth.uid() AND role = 'admin')] *)

Record ProfilePolicy : Type := mkProfilePolicy {
  ppname : text;
  ppcmd : Command;
  pprole : PgRole;
  ppqual : ProfileQual
}.

(** The value of an expression that reads no table; the other expression
    selects from [user_profiles] itself. *)
Definition direct_qual (q : ProfileQual)
    : option (Session -> Profile -> tri) :=
  match q with
  | uid_is_id => Some (fun s row => eq_uuid (uid s) (Some (id row)))
  | admin_profile_exists => None
  end.

Inductive ProfileStatement : Type :=
| DROP_PROFILE_POLICY_IF_EXISTS (name : text)
| CREATE_PROFILE_POLICY (p : ProfilePolicy).

(** The statements on the policies of [user_profiles]; the two migrations
    write the same. *)
Definition profile_statements (v : Migration) : list ProfileStatement :=
  [ DROP_PROFILE_POLICY_IF_EXISTS "Users can view their own profile";
    DROP_PROFILE_POLICY_IF_EXISTS "Users can update their own profile";
    DROP_PROFILE_POLICY_IF_EXISTS "Admins can view all profiles";
    DROP_PROFILE_POLICY_IF_EXISTS "Admins can update all profiles";
    CREATE_PROFILE_POLICY
      (mkProfilePolicy "Users can view their own profile" SELECT
         authenticated uid_is_id);
    CREATE_PROFILE_POLICY
      (mkProfilePolicy "Users can update their own profile" UPDATE
         authenticated uid_is_id);
    CREATE_PROFILE_POLICY
      (mkProfilePolicy "Admins can view all profiles" SELECT
         authenticated admin_profile_exists);
    CREATE_PROFILE_POLICY
      (mkProfilePolicy "Admins can update all profiles" UPDATE
         authenticated admin_profile_exists) ].

Definition exec_profile (cat : list ProfilePolicy) (st : ProfileStatement)
    : option (list ProfilePolicy) :=
  match st with
  | DROP_PROFILE_POLICY_IF_EXISTS n =>
      Some (filter (fun p => negb (String.eqb (ppname p) n)) cat)
  | CREATE_PROFILE_POLICY p =>
      if existsb (fun q => String.eqb (ppname q) (ppname p)) cat then None
      else Some (cat ++ [p])%list
  end.

Fixpoint exec_profile_all (cat : list ProfilePolicy)
    (sts : list ProfileStatement) : option (list ProfilePolicy) :=
  match sts with
  | [] => Some cat
  | st :: sts' =>
      match exec_profile cat st with
      | Some cat' => exec_profile_all cat' sts'
      | None => None
      end
  end.

(** [ALTER TABLE ... ENABLE ROW LEVEL SECURITY]: only the later migration
    has the statement, for both tables. *)
Definition enables_rls (v : Migration) : bool :=
  match v with
  | m20250808054401_rough_darkness => false
  | m20250808054800_sparkling_wildflower => true
  end.

(** *** The schema and the evaluation of a command *)

(** What the migrations leave in the catalog, and whether the role may
    select from [auth.users] (no migration grants or revokes it; the other
    table privileges are taken as granted). *)
Record Schema : Type := mkSchema {
  rls_user_profiles : bool;
  rls_registrations : bool;
  profile_policies : list ProfilePolicy;
  registration_policies : list Policy;
  auth_users_readable : bool
}.

(** Both migrations applied, oldest first, to tables without policies and
    without row-level security. *)
Definition deployed_schema (auth_readable : bool) : option Schema :=
  match deployed_policies,
        match exec_profile_all []
                (profile_statements m20250808054401_rough_darkness) with
        | Some cat =>
            exec_profile_all cat
              (profile_statements m20250808054800_sparkling_wildflower)
        | None => None
        end
  with
  | Some regs, Some profs =>
      let rls := enables_rls m20250808054401_rough_darkness
                 || enables_rls m20250808054800_sparkling_wildflower in
      Some (mkSchema rls rls profs regs auth_readable)
  | _, _ => None
  end.

(** A select on [user_profiles] inside a policy expression, run for the
    session: the rows it can see.  With row-level security on the table the
    [SELECT] policies of the role are added to the select; one of them
    selecting from [user_profiles] again is an infinite recursion, which
    the rewriter refuses whatever the rows are. *)
Definition select_user_profiles (sch : Schema) (db : Db) (s : Session)
    : SqlError + list Profile :=
  if rls_user_profiles sch then
    let app :=
      filter (fun p => Command_eqb (ppcmd p) SELECT
                       && PgRole_eqb (pprole p) (pg_role s))
        (profile_policies sch) in
    if existsb (fun p => match direct_qual (ppqual p) with
                         | None => true
                         | Some _ => false
                         end) app
    then inl infinite_recursion
    else
      inr (filter
             (fun row =>
                existsb (fun p => match direct_qual (ppqual p) with
                                  | Some q => is_true (q s row)
                                  | None => false
                                  end) app)
             (user_profiles db))
  else inr (user_profiles db).

(** A select on [auth.users] inside a policy expression. *)
Definition select_auth_users (sch : Schema) (db : Db)
    : SqlError + list AuthUser :=
  if auth_users_readable sch then inr (auth_users db)
  else inl insufficient_privilege.

(** The answers of the sub-selects on the rows they can see; [id] is the
    primary key of either table, so at most one row answers a scalar
    sub-select. *)
Definition answers (profiles : list Profile) (users : list AuthUser)
    (s : Session) : Lookups :=
  let mine :=
    match uid s with
    | Some u => find (fun p => N.eqb (id p) u) profiles
    | None => None
    end in
  mkLookups
    (match mine with Some p => email p | None => None end)
    (match mine with Some p => role p | None => None end)
    (existsb
       (fun p => is_true (sql_and (eq_uuid (Some (id p)) (uid s))
                                  (eq_text (role p) (Some "admin"))))
       profiles)
    (match uid s with
     | Some u =>
         match find (fun a => N.eqb (au_id a) u) users with
         | Some a => au_email a
         | None => None
         end
     | None => None
     end).

Definition mentions (t : Table) (l : list Table) : bool :=
  existsb (Table_eqb t) l.

(** The sub-selects on the tables in [needs], run for the session. *)
Definition sub_selects (sch : Schema) (db : Db) (s : Session)
    (needs : list Table) : SqlError + Lookups :=
  match (if mentions t_user_profiles needs
         then select_user_profiles sch db s else inr []) with
  | inl e => inl e
  | inr profiles =>
      match (if mentions t_auth_users needs
             then select_auth_users sch db else inr []) with
      | inl e => inl e
      | inr users => inr (answers profiles users s)
      end
  end.

(** A policy is for the command and the role. *)
Definition applies (c : Command) (role : PgRole) (p : Policy) : bool :=
  Command_eqb (polcmd p) c && PgRole_eqb (polrole p) role.

(** Some policy for the command and the role of the session has an
    expression that is true of the row, the sub-selects being answered by
    [L]. *)
Definition accepts (cat : list Policy) (s : Session) (c : Command)
    (L : Lookups) (r : Registration) : bool :=
  existsb (fun p => applies c (pg_role s) p
                    && is_true (holds (polexpr p) s L r))
    cat.

(** A command of the session on a row of [registrations]: an error, or
    whether the row is within reach.  With row-level security on the table
    the policies for the command and the role are added to the statement,
    their sub-selects run for the session, and the row is within reach
    when one of their expressions is true.  (An UPDATE or DELETE that
    reads the row is subject to the [SELECT] policies as well; that is
    left out here.) *)
Definition access (sch : Schema) (db : Db) (s : Session) (c : Command)
    (r : Registration) : SqlError + bool :=
  if rls_registrations sch then
    match sub_selects sch db s
            (flat_map (fun p => reads (polexpr p))
               (filter (applies c (pg_role s)) (registration_policies sch)))
    with
    | inl e => inl e
    | inr L => inr (accepts (registration_policies sch) s c L r)
    end
  else inr true.

(** The command reaches the row under the deployed schema. *)
Definition granted (db : Db) (s : Session) (c : Command) (r : Registration)
    : bool :=
  match deployed_schema false with
  | Some sch =>
      match access sch db s c r with
      | inr true => true
      | _ => false
      end
  | None => false
  end.

(** Two accounts with their profiles: an admin and a user. *)
Definition db_two : Db :=
  mkDb
    [ mkAuthUser 1%N (Some "boss@corp.example") None;
      mkAuthUser 2%N (Some "ann@mail.example") None ]
    [ mkProfile 1%N (Some "Boss") (Some "boss@corp.example") (Some "admin");
      mkProfile 2%N (Some "Ann") (Some "ann@mail.example") (Some "user") ]
    [ mkRegistration (Some 2%N) (Some "ann@mail.example") ]
    [].

Definition admin_session : Session :=
  mkSession authenticated (Some 1%N) (Some "authenticated").

Definition ann_registration : Registration :=
  mkRegistration (Some 2%N) (Some "ann@mail.example").

End Sql.

(* ================================================================= *)
(** ** The specification's vocabulary

    The notions the specification states its rules in, written from its
    words; the theorems compare the code with them. *)

Module Spec.

Import AuthModal.

(** A string is blank when it holds white space only. *)
Definition blank (s : jsstring) : Prop := forallb Js.is_space s = true.

(** A field is present when something other than white space was typed. *)
Definition present (s : jsstring) : Prop := ~ blank s.

(** A part of an address: code units other than white space and [@]. *)
Definition address_part (s : jsstring) : Prop :=
  s <> [] /\ forallb not_space_nor_at s = true.

(** The [local@domain.tld] shape. *)
Definition email_shape (s : jsstring) : Prop :=
  exists local domain tld,
    s = local ++ [64%N] ++ domain ++ [46%N] ++ tld
    /\ address_part local /\ address_part domain /\ address_part tld.

(** The validation rules of the form, one per field. *)
Definition email_rule (d : FormData.t) : Prop :=
  FormData.email d <> [] /\ email_shape (FormData.email d).

Definition password_rule (d : FormData.t) : Prop :=
  FormData.password d <> [] /\ 6 <= List.length (FormData.password d).

Definition fullName_rule (d : FormData.t) : Prop :=
  present (FormData.fullName d) /\ 2 <= List.length (FormData.fullName d).

Definition confirmPassword_rule (d : FormData.t) : Prop :=
  FormData.confirmPassword d <> []
  /\ FormData.confirmPassword d = FormData.password d.

Definition validation_passes (m : Mode) (d : FormData.t) : Prop :=
  email_rule d /\ password_rule d
  /\ (m = signup -> fullName_rule d /\ confirmPassword_rule d).

(** Some per-field error message is set. *)
Definition field_error_set (e : FormErrors.t) : Prop :=
  exists name m, FormErrors.get e name = Some m.

(** Where an entry of the error table puts its message. *)
Inductive Target : Type := to_general | to_email | to_password.

Definition place (tg : Target) (m : jsstring) : FormErrors.t :=
  match tg with
  | to_general => FormErrors.only_general m
  | to_email => FormErrors.only_email m
  | to_password => FormErrors.only_password m
  end.

(** The table of section 6, in its listed order: the substrings of a row,
    and the UI error the row stands for. *)
Definition error_table : list (list jsstring * (Target * jsstring)) :=
  [ ([js "Invalid login credentials"],
     (to_general, js "Invalid email or password"));
    ([js "User already registered"; js "already been registered"],
     (to_email, js "An account with this email already exists"));
    ([js "Password should be at least"],
     (to_password, js "Password must be at least 6 characters long"));
    ([js "Unable to validate email address"],
     (to_email, js "Please enter a valid email address"));
    ([js "Email not confirmed"],
     (to_general,
      js "Please check your email and confirm your account before signing in")) ].

(** A row matches a message that contains one of its substrings. *)
Definition row_matches (m : option jsstring) (subs : list jsstring) : bool :=
  existsb (Js.includes_opt m) subs.

(** The first row of the table that matches. *)
Definition first_match (m : option jsstring) : option (Target * jsstring) :=
  match find (fun row => row_matches m (fst row)) error_table with
  | Some row => Some (snd row)
  | None => None
  end.

(** A message is absent when there is none or it is the empty string. *)
Definition absent (m : option jsstring) : Prop := m = None \/ m = Some [].

(** What closing the modal is said to leave behind: the four text fields
    empty, no error, the success flag and both visibility flags down, and
    the mode of [initialMode]. *)
Definition reset_on_close (p : Props) (s : State) : Prop :=
  formData s = FormData.blank
  /\ errors s = FormErrors.empty
  /\ isSuccess s = false
  /\ showPassword s = false
  /\ showConfirmPassword s = false
  /\ mode s = initialMode p.

End Spec.

(** The access rules of the registrations, in the specification's words. *)

Module AccessSpec.

Import Sql.

Local Open Scope string_scope.

(** [id] is the primary key of [user_profiles]. *)
Definition well_formed (db : Db) : Prop := NoDup (map id (user_profiles db)).

(** The session is the registrant. *)
Definition registrant (s : Session) (r : Registration) : Prop :=
  exists u, uid s = Some u /\ user_id r = Some u.

(** The profile of the session's identity: the row of [user_profiles]
    whose [id] is the identity. *)
Definition profile_of_identity (db : Db) (s : Session) (p : Profile) : Prop :=
  In p (user_profiles db) /\ uid s = Some (id p).

(** The email of the session's profile is that of the registration. *)
Definition email_matches (db : Db) (s : Session) (r : Registration) : Prop :=
  exists p e,
    profile_of_identity db s p /\ email p = Some e /\ user_email r = Some e.

(** The session's profile has the role ['admin']. *)
Definition admin_by_role (db : Db) (s : Session) : Prop :=
  exists p, profile_of_identity db s p /\ role p = Some "admin".

(** The email of the session's profile is one of the two reserved ones. *)
Definition admin_by_reserved_email (db : Db) (s : Session) : Prop :=
  exists p e,
    profile_of_identity db s p /\ email p = Some e
    /\ (e = "admin@showgo.com" \/ e = "support@showgo.com").

Definition admin (db : Db) (s : Session) : Prop :=
  admin_by_role db s \/ admin_by_reserved_email db s.

(** The token of the session carries the role claim ['admin']. *)
Definition admin_by_token (s : Session) : Prop := jwt_role s = Some "admin".

(** Who has access to a registration, by the specification. *)
Definition has_access (db : Db) (s : Session) (r : Registration) : Prop :=
  registrant s r \/ email_matches db s r \/ admin db s.

(** The same notions on the answers of the look-ups: the profile email
    that was found is the registration's email; an admin profile was
    found, or the profile email that was found is reserved. *)
Definition email_found (L : Lookups) (r : Registration) : Prop :=
  exists e, profile_email L = Some e /\ user_email r = Some e.

Definition admin_found (L : Lookups) : Prop :=
  admin_profile L = true
  \/ profile_email L = Some "admin@showgo.com"
  \/ profile_email L = Some "support@showgo.com".

(** The text a JSON object holds at a key: that of its first entry of
    the key ([None] for a JSON null). *)
Inductive key_text (k : text) : jsonb -> option text -> Prop :=
| key_here v rest : key_text k ((k, v) :: rest) v
| key_later k' v' rest v :
    k' <> k -> key_text k rest v -> key_text k ((k', v') :: rest) v.

(** "The metadata full name or the empty string": the text at the key
    [full_name] of the account's metadata, and the empty string when there
    is no metadata, no such key, or a JSON null at the key. *)
Inductive metadata_full_name : option jsonb -> text -> Prop :=
| name_no_metadata : metadata_full_name None ""
| name_no_key kv :
    (forall v, ~ In ("full_name", v) kv) -> metadata_full_name (Some kv) ""
| name_null kv :
    key_text "full_name" kv None -> metadata_full_name (Some kv) ""
| name_text kv n :
    key_text "full_name" kv (Some n) -> metadata_full_name (Some kv) n.

(** The profile of a new account, its full name being [name]. *)
Definition new_profile (NEW : AuthUser) (name : text) : Profile :=
  mkProfile (au_id NEW) (Some name) (au_email NEW) (Some "user").

End AccessSpec.

(** Further notions the properties below are stated in. *)

Module Notions.

Import AuthModal Runtime.

(** An error key holds nothing, or a message that is not empty (so that
    the form prints it). *)
Definition shown_or_absent (o : option jsstring) : Prop :=
  o = None \/ exists m, o = Some m /\ m <> [].

Definition errors_printable (e : FormErrors.t) : Prop :=
  shown_or_absent (FormErrors.email e)
  /\ shown_or_absent (FormErrors.password e)
  /\ shown_or_absent (FormErrors.fullName e)
  /\ shown_or_absent (FormErrors.confirmPassword e)
  /\ shown_or_absent (FormErrors.general e).

(** The data of a remote call obeys the rules of the form. *)
Definition call_valid (c : RemoteCall) : Prop :=
  match c with
  | signIn e p => Spec.email_shape e /\ 6 <= List.length p
  | signUp e p n =>
      Spec.email_shape e /\ 6 <= List.length p
      /\ Spec.present n /\ 2 <= List.length n
  end.

Definition is_timer (e : Event) : bool :=
  match e with TimerFires => true | _ => false end.

Definition is_show_password (e : Event) : bool :=
  match e with ClickShowPassword => true | _ => false end.

Definition is_show_confirm (e : Event) : bool :=
  match e with ClickShowConfirmPassword => true | _ => false end.

(** The number of [@] in a string. *)
Definition count_at (s : jsstring) : nat := count_occ N.eq_dec s 64%N.

(** What a closed modal holds. *)
Definition closed_blank (w : World) : Prop :=
  isOpen (props w) = false ->
  formData (cells w) = FormData.blank
  /\ mode (cells w) = initialMode (props w).

End Notions.

(** Further notions on the backend. *)

Module SqlNotions.

Import Sql.

Local Open Scope string_scope.

(** The names of the policies the migrations write on [registrations]. *)
Definition user_policy_names : list text :=
  [ "Users can view their own registrations";
    "Users can insert their own registrations";
    "Users can update their own registrations";
    "Users can delete their own registrations" ].

Definition admin_policy_name : text := "Admins can view all registrations".

Definition named (names : list text) (p : Policy) : bool :=
  existsb (String.eqb (polname p)) names.

(** The policies each migration creates. *)
Fixpoint created (sts : list Statement) : list Policy :=
  match sts with
  | [] => []
  | CREATE_POLICY p :: r => p :: created r
  | DROP_POLICY_IF_EXISTS _ :: r => created r
  end.

(** The account email that was found is the registration's email. *)
Definition account_email_found (L : Lookups) (r : Registration) : Prop :=
  exists e, account_email L = Some e /\ user_email r = Some e.

Definition all_names : list text := user_policy_names ++ [admin_policy_name].

Definition reserved (e : option text) : Prop :=
  e = Some "admin@showgo.com" \/ e = Some "support@showgo.com".

(** The look-ups of the admin of [db_two], answered from the tables. *)
Definition admin_lookups : Lookups :=
  answers (user_profiles db_two) (auth_users db_two) admin_session.

(** The tables once the account row is stored, before the trigger runs. *)
Definition with_account (u : AuthUser) (db : Db) : Db :=
  mkDb (auth_users db ++ [u])%list (user_profiles db) (registrations db)
    (server_log db).

End SqlNotions.

(* ================================================================= *)
(** * Properties *)

(** ** Strings *)

Module JsFacts.

Import Js.

Lemma eqb_eq (a b : jsstring) : eqb a b = true <-> a = b.
Proof.
  revert b; induction a as [|x a IH]; intros [|y b]; simpl;
    try (split; congruence).
  rewrite andb_true_iff, N.eqb_eq, IH. split.
  - intros [-> ->]; reflexivity.
  - intros H; inversion H; auto.
Qed.

Lemma eqb_refl (a : jsstring) : eqb a a = true.
Proof. apply eqb_eq; reflexivity. Qed.

Lemma startsWith_app (p s : jsstring) :
  startsWith p s = true <-> exists r, s = p ++ r.
Proof.
  revert s; induction p as [|x p IH]; intros s; simpl.
  - split; [intros _; exists s; reflexivity | reflexivity].
  - destruct s as [|y s].
    + split; [discriminate | intros [r H]; discriminate].
    + rewrite andb_true_iff, N.eqb_eq, IH. split.
      * intros [-> [r ->]]; exists r; reflexivity.
      * intros [r H]; inversion H; subst; split; [reflexivity | eauto].
Qed.

(** [includes] finds exactly the contiguous occurrences. *)
Lemma includes_spec (s p : jsstring) :
  includes s p = true <-> exists l r, s = l ++ p ++ r.
Proof.
  induction s as [|c s IH].
  - simpl. rewrite orb_false_r, startsWith_app. split.
    + intros [r H]; exists [], r; exact H.
    + intros [l [r H]]. destruct l; simpl in H.
      * exists r; exact H.
      * discriminate.
  - cbn [includes]. rewrite orb_true_iff, startsWith_app, IH. split.
    + intros [[r H] | [l [r H]]].
      * exists [], r; exact H.
      * exists (c :: l), r; simpl; rewrite H; reflexivity.
    + intros [l [r H]]. destruct l as [|x l]; simpl in H.
      * left; exists r; exact H.
      * right; inversion H; subst; exists l, r; reflexivity.
Qed.

Lemma trimStart_nil_iff (s : jsstring) :
  trimStart s = [] <-> forallb is_space s = true.
Proof.
  induction s as [|c s IH]; simpl; [tauto|].
  destruct (is_space c); simpl; [exact IH | split; discriminate].
Qed.

Lemma trimStart_all_space (s : jsstring) :
  forallb is_space s = true -> trimStart s = [].
Proof. apply trimStart_nil_iff. Qed.

(** [!s.trim()] holds exactly for the strings made of white space only. *)
Lemma trim_nil_iff (s : jsstring) :
  trim s = [] <-> forallb is_space s = true.
Proof.
  unfold trim, trimEnd. split.
  - intros H. apply (f_equal (@rev _)) in H. rewrite rev_involutive in H.
    simpl in H. apply trimStart_nil_iff in H.
    assert (H' : forallb is_space (trimStart s) = true).
    { rewrite forallb_forall in *. intros x Hx. apply H.
      apply in_rev. rewrite rev_involutive. exact Hx. }
    clear H. induction s as [|c s IH]; simpl in *; [reflexivity|].
    destruct (is_space c) eqn:E; simpl; [auto|].
    simpl in H'. rewrite E in H'. discriminate.
  - intros H. rewrite (trimStart_all_space _ H). reflexivity.
Qed.


Lemma truthy_length (s : jsstring) : truthy s = true <-> s <> [].
Proof. destruct s; simpl; split; congruence. Qed.

Lemma trim_truthy_iff (s : jsstring) :
  truthy (trim s) = true <-> forallb is_space s = false.
Proof.
  rewrite truthy_length, trim_nil_iff.
  destruct (forallb is_space s); split; congruence.
Qed.

End JsFacts.

(** ** Regular expressions: [matches] decides [lang] *)

Module RegexFacts.

Import Regex.

Lemma app_nil_both (u v : jsstring) : u ++ v = [] -> u = [] /\ v = [].
Proof. destruct u; simpl; [auto | discriminate]. Qed.

Lemma nullable_lang (r : re) : nullable r = true <-> lang r [].
Proof.
  split.
  - induction r; simpl; intros H; try discriminate.
    + constructor.
    + apply andb_true_iff in H as [Ha Hb].
      change (@nil Js.unit16) with (@nil Js.unit16 ++ []). constructor; auto.
    + apply orb_true_iff in H as [Ha | Hb];
        [apply lang_alt_l | apply lang_alt_r]; auto.
    + constructor.
  - intros H. remember (@nil Js.unit16) as s eqn:Es.
    induction H; simpl; auto; try discriminate.
    + apply app_nil_both in Es as [-> ->]. rewrite IHlang1, IHlang2; auto.
    + rewrite IHlang; auto.
    + rewrite IHlang, orb_true_r; auto.
Qed.

Lemma deriv_sound (c : Js.unit16) (r : re) (s : jsstring) :
  lang (deriv c r) s -> lang r (c :: s).
Proof.
  revert s; induction r; simpl; intros s H.
  - inversion H.
  - inversion H.
  - destruct (p c) eqn:E; inversion H; subst. constructor; exact E.
  - destruct (nullable r1) eqn:E.
    + inversion H; subst.
      * match goal with X : lang (Cat _ _) _ |- _ => inversion X; subst end.
        change (c :: u ++ v) with ((c :: u) ++ v). constructor; auto.
      * change (c :: s) with ([] ++ c :: s). constructor; auto.
        apply nullable_lang; exact E.
    + inversion H; subst.
      change (c :: u ++ v) with ((c :: u) ++ v). constructor; auto.
  - inversion H; subst; [apply lang_alt_l | apply lang_alt_r]; auto.
  - inversion H; subst.
    change (c :: u ++ v) with ((c :: u) ++ v). constructor; auto.
Qed.

Lemma deriv_complete (c : Js.unit16) (r : re) (s : jsstring) :
  lang r (c :: s) -> lang (deriv c r) s.
Proof.
  intros H. remember (c :: s) as w eqn:Ew. revert c s Ew.
  induction H; intros c0 s0 Ew; simpl; try discriminate.
  - inversion Ew; subst. rewrite H. constructor.
  - destruct u as [|x u]; simpl in Ew.
    + subst v. assert (Hn : nullable a = true) by (apply nullable_lang; auto).
      rewrite Hn. apply lang_alt_r. auto.
    + inversion Ew; subst.
      destruct (nullable a); [apply lang_alt_l|]; constructor; auto.
  - apply lang_alt_l; auto.
  - apply lang_alt_r; auto.
  - destruct u as [|x u]; simpl in Ew.
    + subst v. apply (IHlang2 c0 s0 eq_refl).
    + inversion Ew; subst. constructor; auto.
Qed.

(** The matcher accepts exactly the strings of the language. *)
Lemma matches_lang (r : re) (s : jsstring) : matches r s = true <-> lang r s.
Proof.
  revert r; induction s as [|c s IH]; intros r; simpl.
  - apply nullable_lang.
  - rewrite IH. split; [apply deriv_sound | apply deriv_complete].
Qed.

Lemma lang_star_class (p : Js.unit16 -> bool) (s : jsstring) :
  lang (Star (Class p)) s <-> forallb p s = true.
Proof.
  split.
  - intros H. remember (Star (Class p)) as r eqn:Er.
    induction H; try discriminate; [reflexivity|].
    inversion Er; subst. inversion H; subst. simpl.
    rewrite IHlang2; auto. rewrite andb_true_r; assumption.
  - induction s as [|c s IH]; simpl; intros H.
    + constructor.
    + apply andb_true_iff in H as [Hc Hs].
      change (c :: s) with ([c] ++ s). constructor; [constructor|]; auto.
Qed.

(** [[p]+]: one or more code units of the class. *)
Lemma lang_plus_class (p : Js.unit16 -> bool) (s : jsstring) :
  lang (Plus (Class p)) s <-> s <> [] /\ forallb p s = true.
Proof.
  unfold Plus. split.
  - intros H. inversion H; subst.
    match goal with X : lang (Class _) _ |- _ => inversion X; subst end.
    match goal with X : lang (Star _) _ |- _ => apply lang_star_class in X;
      simpl; rewrite X end.
    split; [discriminate | rewrite andb_true_r; assumption].
  - intros [Hne Hall]. destruct s as [|c s]; [congruence|].
    simpl in Hall. apply andb_true_iff in Hall as [Hc Hs].
    change (c :: s) with ([c] ++ s). constructor; [constructor; auto|].
    apply lang_star_class; exact Hs.
Qed.

Lemma lang_cat_inv (a b : re) (s : jsstring) :
  lang (Cat a b) s <-> exists u v, s = u ++ v /\ lang a u /\ lang b v.
Proof.
  split.
  - intros H; inversion H; subst; eauto.
  - intros [u [v [-> [Ha Hb]]]]; constructor; auto.
Qed.

Lemma lang_char_inv (k : N) (s : jsstring) :
  lang (Class (N.eqb k)) s <-> s = [k].
Proof.
  split.
  - intros H; inversion H; subst.
    match goal with X : N.eqb _ _ = true |- _ => apply N.eqb_eq in X; subst end.
    reflexivity.
  - intros ->. constructor. apply N.eqb_refl.
Qed.

End RegexFacts.

(** ** Validation *)

Module ValidationFacts.

Import AuthModal Spec.

Lemma emailRegex_shape (s : jsstring) :
  Regex.matches emailRegex s = true <-> email_shape s.
Proof.
  rewrite RegexFacts.matches_lang. unfold emailRegex, email_shape, address_part.
  split.
  - intros H.
    apply RegexFacts.lang_cat_inv in H as (l & r1 & -> & Hl & H).
    apply RegexFacts.lang_cat_inv in H as (a & r2 & -> & Ha & H).
    apply RegexFacts.lang_cat_inv in H as (d & r3 & -> & Hd & H).
    apply RegexFacts.lang_cat_inv in H as (o & t & -> & Ho & Ht).
    apply RegexFacts.lang_char_inv in Ha, Ho. subst a o.
    apply RegexFacts.lang_plus_class in Hl, Hd, Ht.
    exists l, d, t. auto.
  - intros (l & d & t & -> & Hl & Hd & Ht).
    apply RegexFacts.lang_plus_class in Hl, Hd, Ht.
    repeat (constructor; auto); apply N.eqb_refl.
Qed.

Lemma email_shape_not_blank (s : jsstring) :
  email_shape s -> Js.truthy (Js.trim s) = true /\ s <> [].
Proof.
  intros (l & d & t & -> & (Hl & _) & _). split.
  - apply JsFacts.trim_truthy_iff. rewrite forallb_app. simpl.
    apply andb_false_r.
  - destruct l; simpl; discriminate.
Qed.

Ltac split_ifs :=
  repeat match goal with
         | |- context [if ?b then _ else _] => destruct b
         end.

Lemma newErrors_email (m : Mode) (d : FormData.t) :
  FormErrors.email (newErrors m d) =
  if negb (Js.truthy (Js.trim (FormData.email d)))
  then Some (js "Email is required")
  else if negb (Regex.matches emailRegex (FormData.email d))
       then Some (js "Please enter a valid email address")
       else None.
Proof. unfold newErrors. destruct m; split_ifs; reflexivity. Qed.

Lemma newErrors_password (m : Mode) (d : FormData.t) :
  FormErrors.password (newErrors m d) =
  if negb (Js.truthy (FormData.password d))
  then Some (js "Password is required")
  else if Nat.ltb (List.length (FormData.password d)) 6
       then Some (js "Password must be at least 6 characters")
       else None.
Proof. unfold newErrors. destruct m; split_ifs; reflexivity. Qed.

Lemma newErrors_fullName (m : Mode) (d : FormData.t) :
  FormErrors.fullName (newErrors m d) =
  match m with
  | signin => None
  | signup =>
      if negb (Js.truthy (Js.trim (FormData.fullName d)))
      then Some (js "Full name is required")
      else if Nat.ltb (List.length (FormData.fullName d)) 2
           then Some (js "Full name must be at least 2 characters")
           else None
  end.
Proof. unfold newErrors. destruct m; split_ifs; reflexivity. Qed.

Lemma newErrors_confirmPassword (m : Mode) (d : FormData.t) :
  FormErrors.confirmPassword (newErrors m d) =
  match m with
  | signin => None
  | signup =>
      if negb (Js.truthy (FormData.confirmPassword d))
      then Some (js "Please confirm your password")
      else if negb (Js.eqb (FormData.password d) (FormData.confirmPassword d))
           then Some (js "Passwords do not match")
           else None
  end.
Proof. unfold newErrors. destruct m; split_ifs; reflexivity. Qed.

Lemma newErrors_general (m : Mode) (d : FormData.t) :
  FormErrors.general (newErrors m d) = None.
Proof. unfold newErrors. destruct m; split_ifs; reflexivity. Qed.

Lemma key_zero (o : option jsstring) : FormErrors.key o = 0 <-> o = None.
Proof. destruct o; simpl; split; congruence. Qed.

Lemma keys_length_zero (e : FormErrors.t) :
  FormErrors.keys_length e = 0 <->
  FormErrors.email e = None /\ FormErrors.password e = None
  /\ FormErrors.fullName e = None /\ FormErrors.confirmPassword e = None
  /\ FormErrors.general e = None.
Proof.
  unfold FormErrors.keys_length. rewrite <- !key_zero. lia.
Qed.

Lemma email_ok_iff (m : Mode) (d : FormData.t) :
  FormErrors.email (newErrors m d) = None <-> email_rule d.
Proof.
  rewrite newErrors_email. unfold email_rule.
  destruct (Regex.matches emailRegex (FormData.email d)) eqn:E.
  - apply emailRegex_shape in E. destruct (email_shape_not_blank _ E) as [-> Hne].
    simpl. tauto.
  - assert (~ email_shape (FormData.email d)).
    { intros H. apply emailRegex_shape in H. congruence. }
    destruct (negb _); simpl; split; try discriminate; tauto.
Qed.

Lemma password_ok_iff (m : Mode) (d : FormData.t) :
  FormErrors.password (newErrors m d) = None <-> password_rule d.
Proof.
  rewrite newErrors_password. unfold password_rule.
  destruct (FormData.password d) as [|c p]; cbn [Js.truthy negb].
  - split; [discriminate | intros [H _]; congruence].
  - destruct (Nat.ltb_spec (List.length (c :: p)) 6) as [Hlt | Hge].
    + split; [discriminate | intros [_ H']; lia].
    + split; [intros _; split; [discriminate | exact Hge] | reflexivity].
Qed.

Lemma fullName_ok_iff (d : FormData.t) :
  FormErrors.fullName (newErrors signup d) = None <-> fullName_rule d.
Proof.
  rewrite newErrors_fullName. unfold fullName_rule, present, blank.
  destruct (Js.truthy (Js.trim (FormData.fullName d))) eqn:E; simpl.
  - apply JsFacts.trim_truthy_iff in E. rewrite E.
    destruct (Nat.ltb_spec (List.length (FormData.fullName d)) 2)
      as [Hlt | Hge].
    + split; [discriminate | intros [_ H']; lia].
    + split; [intros _; split; [discriminate | exact Hge] | reflexivity].
  - assert (forallb Js.is_space (FormData.fullName d) = true) as ->.
    { destruct (forallb Js.is_space (FormData.fullName d)) eqn:F; auto.
      apply JsFacts.trim_truthy_iff in F. congruence. }
    split; [discriminate | intros [H _]; congruence].
Qed.

Lemma confirmPassword_ok_iff (d : FormData.t) :
  FormErrors.confirmPassword (newErrors signup d) = None
  <-> confirmPassword_rule d.
Proof.
  rewrite newErrors_confirmPassword. unfold confirmPassword_rule.
  destruct (FormData.confirmPassword d) as [|c p] eqn:Ec; simpl.
  - split; [discriminate | intros [H _]; congruence].
  - destruct (Js.eqb (FormData.password d) (c :: p)) eqn:E; simpl.
    + apply JsFacts.eqb_eq in E. split; [|reflexivity].
      intros _; split; [discriminate | congruence].
    + split; [discriminate|]. intros [_ H]. rewrite <- H in E.
      rewrite JsFacts.eqb_refl in E. discriminate.
Qed.

(** [newErrors] has no key exactly when every rule of the mode holds. *)
Lemma newErrors_empty_iff (m : Mode) (d : FormData.t) :
  FormErrors.keys_length (newErrors m d) = 0 <-> validation_passes m d.
Proof.
  rewrite keys_length_zero, email_ok_iff, password_ok_iff.
  unfold validation_passes. destruct m.
  - rewrite newErrors_fullName, newErrors_confirmPassword, newErrors_general.
    split.
    + intros (He & Hp & _). split; [exact He | split; [exact Hp | discriminate]].
    + intros (He & Hp & _). auto 6.
  - rewrite fullName_ok_iff, confirmPassword_ok_iff, newErrors_general.
    tauto.
Qed.

Lemma keys_length_field_error (m : Mode) (d : FormData.t) :
  FormErrors.keys_length (newErrors m d) <> 0 ->
  field_error_set (newErrors m d).
Proof.
  intros H. unfold field_error_set.
  destruct (FormErrors.email (newErrors m d)) as [x|] eqn:E1;
    [exists n_email, x; exact E1|].
  destruct (FormErrors.password (newErrors m d)) as [x|] eqn:E2;
    [exists n_password, x; exact E2|].
  destruct (FormErrors.fullName (newErrors m d)) as [x|] eqn:E3;
    [exists n_fullName, x; exact E3|].
  destruct (FormErrors.confirmPassword (newErrors m d)) as [x|] eqn:E4;
    [exists n_confirmPassword, x; exact E4|].
  exfalso; apply H. apply keys_length_zero.
  rewrite newErrors_general. auto.
Qed.

End ValidationFacts.

(** ** The handlers of the modal *)

Module HandlerFacts.

Import AuthModal Spec ValidationFacts.

Lemma handleSubmit_begin_eq (s : State) :
  handleSubmit_begin s =
  if Nat.eqb (FormErrors.keys_length (newErrors (mode s) (formData s))) 0
  then (setErrors FormErrors.empty
          (setIsSubmitting true
             (setErrors (newErrors (mode s) (formData s)) s)),
        Some (call_of s))
  else (setErrors (newErrors (mode s) (formData s)) s, None).
Proof.
  unfold handleSubmit_begin, validateForm, call_of.
  destruct (Nat.eqb _ 0); simpl; destruct (mode s); reflexivity.
Qed.

Lemma handleSubmit_begin_call (s : State) :
  snd (handleSubmit_begin s) <> None
  <-> validation_passes (mode s) (formData s).
Proof.
  rewrite handleSubmit_begin_eq, <- newErrors_empty_iff.
  destruct (Nat.eqb_spec (FormErrors.keys_length (newErrors (mode s) (formData s))) 0);
    simpl; split; congruence.
Qed.

Lemma snoc_neq (l : list RemoteCall) (c : RemoteCall) : l ++ [c] <> l.
Proof.
  intros H. apply (f_equal (@List.length _)) in H.
  rewrite length_app in H. simpl in H. lia.
Qed.

(** C1: submitting the form contacts the remote auth service if and only
    if client-side validation passes, that is: the email is non-empty and
    has the local@domain.tld shape, the password is non-empty and at least
    6 characters long and, in signup mode, the full name is present (it is
    not blank) and at least 2 characters long and the confirm-password is
    present (it is not empty) and equal to the password.  When validation
    fails no call is made, the errors are the per-field messages of the
    failed rules (at least one is set, the general one is not) and the
    submitting flag is untouched; when it passes, the call made is signUp
    or signIn by the mode.  The same holds of the mounted component: a
    submission adds a call to those sent exactly when validation passes.
    In particular the email a@b with the password hunter1 fails, in either
    mode and whatever the other cells, with the email error "Please enter
    a valid email address" and no call. *)
Theorem handleSubmit_contacts_remote_iff_valid :
  forall s : State,
    (snd (handleSubmit_begin s) <> None
     <-> validation_passes (mode s) (formData s))
    /\ match snd (handleSubmit_begin s) with
       | Some call =>
           call = call_of s
           /\ isSubmitting (fst (handleSubmit_begin s)) = true
       | None =>
           errors (fst (handleSubmit_begin s))
             = newErrors (mode s) (formData s)
           /\ field_error_set (errors (fst (handleSubmit_begin s)))
           /\ FormErrors.general (errors (fst (handleSubmit_begin s))) = None
           /\ isSubmitting (fst (handleSubmit_begin s)) = isSubmitting s
       end
    /\ (forall w w' : Runtime.World,
          Runtime.cells w = s ->
          Runtime.step w Runtime.SubmitForm = Some w' ->
          (Runtime.sent w' <> Runtime.sent w
           <-> validation_passes (mode s) (formData s)))
    /\ (forall m fn cp e sub suc sp scp,
          let s0 := mkState m (FormData.mk (js "a@b") (js "hunter1") fn cp)
                      e sub suc sp scp in
          snd (handleSubmit_begin s0) = None
          /\ FormErrors.email (errors (fst (handleSubmit_begin s0)))
             = Some (js "Please enter a valid email address")).
Proof.
  intros s. split; [apply handleSubmit_begin_call|]. split; [|split].
  2:{ intros w w' <- H. rewrite <- newErrors_empty_iff.
      unfold Runtime.step in H.
      destruct (Runtime.render (Runtime.props w) (Runtime.cells w))
        as [| |[|] su]; try discriminate.
      rewrite handleSubmit_begin_eq in H.
      destruct (Nat.eqb_spec
                  (FormErrors.keys_length
                     (newErrors (mode (Runtime.cells w))
                        (formData (Runtime.cells w)))) 0) as [E | E];
        inversion H; subst; simpl.
      - split; [auto | intros _; apply snoc_neq].
      - rewrite app_nil_r. split; [congruence | contradiction]. }
  - rewrite handleSubmit_begin_eq.
    destruct (Nat.eqb_spec
                (FormErrors.keys_length (newErrors (mode s) (formData s))) 0)
      as [E | E]; simpl.
    + auto.
    + repeat split; auto using keys_length_field_error, newErrors_general.
  - intros m fn cp e sub suc sp scp s0.
    assert (Hmail : FormErrors.email (newErrors m (formData s0))
                    = Some (js "Please enter a valid email address")).
    { rewrite newErrors_email. reflexivity. }
    assert (Hkeys : FormErrors.keys_length (newErrors m (formData s0)) <> 0).
    { intros H. apply keys_length_zero in H as [H _]. congruence. }
    rewrite handleSubmit_begin_eq. change (mode s0) with m.
    apply Nat.eqb_neq in Hkeys. rewrite Hkeys. simpl. auto.
Qed.

(** C1 at the email a@b and the password hunter1, on the sign-in form. *)
Lemma handleSubmit_contacts_remote_iff_valid_witness :
  snd (handleSubmit_begin
         (mkState signin (FormData.mk (js "a@b") (js "hunter1") [] [])
            FormErrors.empty false false false false)) = None
  /\ FormErrors.email
       (errors
          (fst (handleSubmit_begin
                  (mkState signin (FormData.mk (js "a@b") (js "hunter1") [] [])
                     FormErrors.empty false false false false))))
     = Some (js "Please enter a valid email address").
Proof.
  exact (proj2 (proj2 (proj2
           (handleSubmit_contacts_remote_iff_valid
              (initialState (mkProps true signin)))))
           signin [] [] FormErrors.empty false false false false).
Defined.

Lemma trimStart_pad (l : jsstring) (c : Js.unit16) (r : jsstring) :
  blank l -> Js.is_space c = false -> Js.trimStart (l ++ c :: r) = c :: r.
Proof.
  unfold blank. induction l as [|x l IH]; simpl; intros Hl Hc.
  - rewrite Hc; reflexivity.
  - apply andb_true_iff in Hl as [-> Hl]. auto.
Qed.

(** Trimming a single character padded with white space leaves it. *)
Lemma trim_pad (l : jsstring) (c : Js.unit16) (r : jsstring) :
  blank l -> blank r -> Js.is_space c = false ->
  Js.trim (l ++ [c] ++ r) = [c].
Proof.
  intros Hl Hr Hc. unfold Js.trim, Js.trimEnd. simpl.
  rewrite (trimStart_pad l c r Hl Hc). simpl.
  rewrite (trimStart_pad (rev r) c []); auto.
  unfold blank in *. rewrite forallb_forall in *.
  intros x Hx. apply Hr. apply in_rev. exact Hx.
Qed.

(** C10: in signup mode the minimum length of the full name is checked on
    the string as typed, not on its trimmed content: a name that trims to
    a single character and is padded with white space (such as " A")
    raises no full-name error although only one of its characters is not
    white space, while a name of white space only is rejected with "Full
    name is required".  With the other fields valid, " A" passes
    validation as a whole. *)
Theorem fullName_length_checked_untrimmed :
  forall d : FormData.t,
    (forall l c r,
        FormData.fullName d = l ++ [c] ++ r ->
        blank l -> blank r -> Js.is_space c = false -> l ++ r <> [] ->
        Js.trim (FormData.fullName d) = [c]
        /\ FormErrors.fullName (newErrors signup d) = None)
    /\ (blank (FormData.fullName d) ->
        FormErrors.fullName (newErrors signup d)
        = Some (js "Full name is required"))
    /\ (forall e sub suc sp scp,
          snd (validateForm
                 (mkState signup
                    (FormData.mk (js "a@b.co") (js "abcdef") (js " A")
                       (js "abcdef")) e sub suc sp scp)) = true).
Proof.
  intros d. split; [|split].
  - intros l c r E Hl Hr Hc Hpad. rewrite E.
    split; [apply trim_pad; assumption|].
    rewrite newErrors_fullName, E, (trim_pad l c r Hl Hr Hc). simpl.
    destruct (Nat.ltb_spec (List.length (l ++ c :: r)) 2) as [Hlt|]; auto.
    rewrite length_app in Hlt. simpl in Hlt.
    destruct l, r; simpl in *; try lia. congruence.
  - intros Hb. rewrite newErrors_fullName.
    apply JsFacts.trim_nil_iff in Hb. rewrite Hb. reflexivity.
  - intros; reflexivity.
Qed.

(** The instance of C10 at the name " A": a space, then the letter. *)
Lemma fullName_length_checked_untrimmed_witness :
  Js.trim (js " A") = js "A"
  /\ FormErrors.fullName
       (newErrors signup (FormData.mk (js "a@b.co") (js "abcdef") (js " A")
                            (js "abcdef"))) = None.
Proof.
  apply (proj1 (fullName_length_checked_untrimmed
                  (FormData.mk (js "a@b.co") (js "abcdef") (js " A")
                     (js "abcdef")))
           (js " ") 65%N []);
    [reflexivity | reflexivity | reflexivity | reflexivity | discriminate].
Defined.

Ltac split_includes :=
  repeat match goal with
         | |- context [Js.includes_opt ?a ?b] =>
             let E := fresh "E" in destruct (Js.includes_opt a b) eqn:E
         end.

Lemma errorsOf_table (err : AuthError) :
  errorsOf err =
  match first_match (message err) with
  | Some (tg, text) => place tg text
  | None =>
      FormErrors.only_general
        (Js.or_else (message err)
           (js "An unexpected error occurred. Please try again."))
  end.
Proof.
  unfold errorsOf, first_match, error_table, row_matches.
  cbn [find existsb fst snd].
  split_includes; reflexivity.
Qed.

Lemma first_match_none (m : option jsstring) :
  first_match m = None ->
  Js.includes_opt m (js "Invalid login credentials") = false
  /\ Js.includes_opt m (js "User already registered") = false
  /\ Js.includes_opt m (js "already been registered") = false
  /\ Js.includes_opt m (js "Password should be at least") = false
  /\ Js.includes_opt m (js "Unable to validate email address") = false
  /\ Js.includes_opt m (js "Email not confirmed") = false.
Proof.
  unfold first_match, error_table, row_matches.
  cbn [find existsb fst snd].
  split_includes; cbn [orb]; intros H; try discriminate H; auto 10.
Qed.

(** C2: the UI error for a remote error is the choice of the substring
    table taken in its listed order, the first matching row deciding, and
    [handleSubmit] stores exactly that.  A message containing "Invalid
    login credentials" (the first row; for instance "Invalid login
    credentials for user") gives only the general error "Invalid email or
    password", no field error.  A message that the first row does not
    claim and that contains "already been registered" or "User already
    registered" gives the email error "An account with this email already
    exists" and no other error, so none on the password.  When no row
    matches, the general error is the raw message, or the generic fallback
    when the message is absent (undefined or empty). *)
Theorem remote_error_chosen_by_table :
  forall (err : AuthError) (s : State),
    errors (fst (handleSubmit_settle (Resolved (Some err)) s)) = errorsOf err
    /\ errorsOf err =
       match first_match (message err) with
       | Some (tg, text) => place tg text
       | None =>
           FormErrors.only_general
             (Js.or_else (message err)
                (js "An unexpected error occurred. Please try again."))
       end
    /\ (Js.includes_opt (message err) (js "Invalid login credentials") = true ->
        errorsOf err
        = FormErrors.mk None None None None (Some (js "Invalid email or password")))
    /\ (Js.includes_opt (message err) (js "Invalid login credentials") = false ->
        Js.includes_opt (message err) (js "already been registered") = true
        \/ Js.includes_opt (message err) (js "User already registered") = true ->
        errorsOf err
        = FormErrors.mk (Some (js "An account with this email already exists"))
            None None None None)
    /\ (first_match (message err) = None ->
        (forall raw, message err = Some raw -> raw <> [] ->
                     errorsOf err = FormErrors.mk None None None None (Some raw))
        /\ (absent (message err) ->
            errorsOf err
            = FormErrors.mk None None None None
                (Some (js "An unexpected error occurred. Please try again."))))
    /\ errorsOf (mkAuthError (Some (js "Invalid login credentials for user")))
       = FormErrors.mk None None None None (Some (js "Invalid email or password")).
Proof.
  intros err s. split; [reflexivity|]. split; [apply errorsOf_table|].
  split; [|split; [|split]].
  - intros H. unfold errorsOf. rewrite H. reflexivity.
  - intros H1 H2. unfold errorsOf. rewrite H1.
    destruct H2 as [H2 | H2]; rewrite H2; [rewrite orb_true_r|]; reflexivity.
  - intros H. apply first_match_none in H as (H1 & H2 & H3 & H4 & H5 & H6).
    unfold errorsOf. rewrite H1, H2, H3, H4, H5, H6. cbn [orb]. split.
    + intros raw -> Hraw. destruct raw; [congruence | reflexivity].
    + intros [-> | ->]; reflexivity.
  - reflexivity.
Qed.

(** C2 at a message of the second row. *)
Lemma remote_error_chosen_by_table_witness :
  errorsOf (mkAuthError (Some (js "A user with this email address has already been registered")))
  = FormErrors.mk (Some (js "An account with this email already exists"))
      None None None None.
Proof.
  apply (proj1 (proj2 (proj2 (proj2
           (remote_error_chosen_by_table
              (mkAuthError
                 (Some (js "A user with this email address has already been registered")))
              (initialState (mkProps true signup))))))).
  - reflexivity.
  - left; reflexivity.
Defined.

(** The rows are tried in order: a message that contains the substrings of
    the first and of the second row gets the first row's error. *)
Lemma first_row_wins :
  errorsOf (mkAuthError
              (Some (js "Invalid login credentials: User already registered")))
  = FormErrors.only_general (js "Invalid email or password").
Proof. reflexivity. Qed.

(** C3: switching the mode toggles it between signin and signup, empties
    the password, confirm-password and full-name fields and removes every
    error, field-level and general, while the email field keeps exactly
    what was typed; the other cells are untouched.  The control exists
    whenever the form is shown. *)
Theorem switchMode_keeps_email_only :
  forall s : State,
    mode (switchMode s)
      = match mode s with signin => signup | signup => signin end
    /\ FormData.email (formData (switchMode s)) = FormData.email (formData s)
    /\ FormData.password (formData (switchMode s)) = []
    /\ FormData.confirmPassword (formData (switchMode s)) = []
    /\ FormData.fullName (formData (switchMode s)) = []
    /\ (forall name, FormErrors.get (errors (switchMode s)) name = None)
    /\ FormErrors.general (errors (switchMode s)) = None
    /\ isSubmitting (switchMode s) = isSubmitting s
    /\ isSuccess (switchMode s) = isSuccess s
    /\ showPassword (switchMode s) = showPassword s
    /\ showConfirmPassword (switchMode s) = showConfirmPassword s
    /\ (forall w : Runtime.World,
          Runtime.cells w = s ->
          match Runtime.render (Runtime.props w) s with
          | Runtime.Form _ _ =>
              Runtime.step w Runtime.ClickSwitchMode
              = Some (Runtime.withCells (switchMode s) w)
          | _ => Runtime.step w Runtime.ClickSwitchMode = None
          end).
Proof.
  intros s. repeat split; try (destruct name; reflexivity).
  intros w <-. unfold Runtime.step.
  destruct (Runtime.render (Runtime.props w) (Runtime.cells w)); reflexivity.
Qed.

(** C3 on a signup form with every field filled and errors shown. *)
Lemma switchMode_keeps_email_only_witness :
  Runtime.step
    (Runtime.mkWorld (mkProps true signin)
       (mkState signup
          (FormData.mk (js "me@x.io") (js "secret") (js "Me") (js "secrex"))
          (FormErrors.mk None None None (Some (js "Passwords do not match")) None)
          false false false false)
       [] [] 0%N [] 0)
    Runtime.ClickSwitchMode
  = Some (Runtime.mkWorld (mkProps true signin)
            (mkState signin (FormData.mk (js "me@x.io") [] [] [])
               FormErrors.empty false false false false)
            [] [] 0%N [] 0).
Proof.
  exact (proj2 (proj2 (proj2 (proj2 (proj2 (proj2 (proj2 (proj2 (proj2 (proj2
          (proj2 (switchMode_keeps_email_only _)))))))))))
          (Runtime.mkWorld (mkProps true signin)
             (mkState signup
                (FormData.mk (js "me@x.io") (js "secret") (js "Me") (js "secrex"))
                (FormErrors.mk None None None
                   (Some (js "Passwords do not match")) None)
                false false false false)
             [] [] 0%N [] 0)
          eq_refl).
Defined.

(** C9: editing a field stores exactly the typed value in that field and
    leaves the other fields alone; the field's error, if it had one, is
    removed, and afterwards the field shows no error; the errors of every
    other field and the general error are unchanged, as are the other
    cells. *)
Theorem handleInputChange_clears_own_error :
  forall (name : FieldName) (value : jsstring) (s : State),
    FormData.get (formData (handleInputChange name value s)) name = value
    /\ (forall other, FieldName_eqb other name = false ->
          FormData.get (formData (handleInputChange name value s)) other
          = FormData.get (formData s) other)
    /\ Js.truthy_opt (FormErrors.get (errors (handleInputChange name value s)) name)
       = false
    /\ (Js.truthy_opt (FormErrors.get (errors s) name) = true ->
        FormErrors.get (errors (handleInputChange name value s)) name = None)
    /\ (forall other, FieldName_eqb other name = false ->
          FormErrors.get (errors (handleInputChange name value s)) other
          = FormErrors.get (errors s) other)
    /\ FormErrors.general (errors (handleInputChange name value s))
       = FormErrors.general (errors s)
    /\ mode (handleInputChange name value s) = mode s
    /\ isSubmitting (handleInputChange name value s) = isSubmitting s
    /\ isSuccess (handleInputChange name value s) = isSuccess s
    /\ showPassword (handleInputChange name value s) = showPassword s
    /\ showConfirmPassword (handleInputChange name value s)
       = showConfirmPassword s.
Proof.
  intros name value s. unfold handleInputChange.
  destruct (Js.truthy_opt (FormErrors.get (errors s) name)) eqn:E.
  - repeat split; try (destruct name; reflexivity);
      intros other H; destruct other, name; try discriminate H; reflexivity.
  - repeat split; try (destruct name; reflexivity); try exact E;
      try discriminate;
      intros other H; destruct other, name; try discriminate H; reflexivity.
Qed.

(** C9 on a form that shows a password error and a general error: typing
    into the password field removes the former and keeps the latter. *)
Lemma handleInputChange_clears_own_error_witness :
  FormErrors.get
    (errors
       (handleInputChange n_password (js "hunter12")
          (mkState signin (FormData.mk (js "a@b.co") (js "hunt") [] [])
             (FormErrors.mk None
                (Some (js "Password must be at least 6 characters")) None None
                (Some (js "Invalid email or password")))
             false false false false)))
    n_password = None.
Proof.
  apply (proj1 (proj2 (proj2 (proj2
           (handleInputChange_clears_own_error n_password (js "hunter12")
              (mkState signin (FormData.mk (js "a@b.co") (js "hunt") [] [])
                 (FormErrors.mk None
                    (Some (js "Password must be at least 6 characters")) None
                    None (Some (js "Invalid email or password")))
                 false false false false)))))).
  reflexivity.
Defined.

End HandlerFacts.

(** ** The mounted component *)

Module RuntimeFacts.

Import AuthModal Spec Runtime.

Lemma render_form (p : Props) (s : State) (b su : bool) :
  render p s = Form b su ->
  isOpen p = true /\ isSuccess s = false /\ isSubmitting s = b.
Proof.
  unfold render. destruct (isOpen p), (isSuccess s); simpl; try discriminate.
  intros H; inversion H; auto.
Qed.

Lemma resetEffect_isSubmitting (p : Props) (s : State) :
  isSubmitting (resetEffect p s) = isSubmitting s.
Proof. unfold resetEffect. destruct (isOpen p); reflexivity. Qed.

Lemma resetEffect_isSuccess (p : Props) (s : State) :
  isSuccess (resetEffect p s) = isOpen p && isSuccess s.
Proof. unfold resetEffect. destruct (isOpen p); reflexivity. Qed.

Lemma handleInputChange_flags (name : FieldName) (v : jsstring) (s : State) :
  isSubmitting (handleInputChange name v s) = isSubmitting s
  /\ isSuccess (handleInputChange name v s) = isSuccess s.
Proof.
  unfold handleInputChange.
  destruct (Js.truthy_opt (FormErrors.get (errors s) name)); auto.
Qed.

Lemma handleSubmit_begin_flags (s : State) :
  isSuccess (fst (handleSubmit_begin s)) = isSuccess s
  /\ match snd (handleSubmit_begin s) with
     | Some _ => isSubmitting (fst (handleSubmit_begin s)) = true
     | None => isSubmitting (fst (handleSubmit_begin s)) = isSubmitting s
     end.
Proof.
  rewrite HandlerFacts.handleSubmit_begin_eq.
  destruct (Nat.eqb _ 0); simpl; auto.
Qed.

(** The [finally] clause: whatever the outcome, the flag is cleared. *)
Lemma handleSubmit_settle_isSubmitting (r : Settled) (s : State) :
  isSubmitting (fst (handleSubmit_settle r s)) = false.
Proof. destruct r as [[err|]|]; reflexivity. Qed.

Lemma handleSubmit_settle_isSuccess (r : Settled) (s : State) :
  isSuccess (fst (handleSubmit_settle r s))
  = match r with Resolved None => true | _ => isSuccess s end.
Proof. destruct r as [[err|]|]; reflexivity. Qed.

Lemma handleSubmit_settle_timer (r : Settled) (s : State) :
  snd (handleSubmit_settle r s)
  = match r with Resolved None => Some 1500%N | _ => None end.
Proof. destruct r as [[err|]|]; reflexivity. Qed.

Lemma mount_Inv (p : Props) : Inv (mount p).
Proof.
  unfold Inv, mount; simpl. rewrite resetEffect_isSubmitting; simpl.
  auto.
Qed.

Lemma step_Inv (w w' : World) (e : Event) :
  Inv w -> step w e = Some w' -> Inv w'.
Proof.
  unfold Inv. intros [Hlen Hsuc] H. destruct e; unfold step in H.
  - (* ParentRenders *)
    destruct (Props_eqb p (props w)); inversion H; subst; simpl; auto.
    rewrite resetEffect_isSubmitting, resetEffect_isSuccess. split; auto.
    intros E; apply andb_true_iff in E as [_ E]; auto.
  - destruct (isOpen (props w)); inversion H; subst; simpl; auto.
  - destruct (render (props w) (cells w)); inversion H; subst; simpl; auto.
  - destruct (render (props w) (cells w)); inversion H; subst; simpl; auto.
  - (* Change *)
    destruct (render (props w) (cells w)) as [| |b su]; try discriminate.
    destruct (input_rendered su name); inversion H; subst; simpl.
    destruct (handleInputChange_flags name value (cells w)) as [-> ->]. auto.
  - destruct (render (props w) (cells w)); inversion H; subst; simpl; auto.
  - destruct (render (props w) (cells w)) as [| |b [|]]; inversion H; subst;
      simpl; auto.
  - destruct (render (props w) (cells w)); inversion H; subst; simpl; auto.
  - (* SubmitForm *)
    destruct (render (props w) (cells w)) as [| |[|] su] eqn:R;
      try discriminate.
    apply render_form in R as (_ & Rs & Rb).
    rewrite Rb in Hlen. apply length_zero_iff_nil in Hlen.
    destruct (handleSubmit_begin_flags (cells w)) as [F1 F2].
    destruct (handleSubmit_begin (cells w)) as [s' call]. simpl in F1, F2.
    inversion H; subst; simpl. rewrite Hlen, F1, Rs. simpl.
    destruct call; simpl; rewrite F2; [|rewrite Rb]; split;
      auto; discriminate.
  - (* CallSettles *)
    destruct (pending w) as [|c rest] eqn:P; try discriminate.
    pose proof (handleSubmit_settle_isSubmitting r (cells w)) as F.
    destruct (handleSubmit_settle r (cells w)) as [s' timer]. simpl in F.
    inversion H; subst; simpl. rewrite F.
    destruct (isSubmitting (cells w)); simpl in Hlen; try discriminate.
    destruct rest; [auto | discriminate].
  - inversion H; subst; simpl; auto.
  - destruct (timers w) as [|due rest]; try discriminate.
    destruct (N.leb due (clock w)); inversion H; subst; simpl; auto.
Qed.

Lemma reachable_Inv (w : World) : reachable w -> Inv w.
Proof.
  induction 1 as [p | w e w' _ IH H]; [apply mount_Inv | eauto using step_Inv].
Qed.

Lemma run_reachable (es : list Event) :
  forall w w', reachable w -> run w es = Some w' -> reachable w'.
Proof.
  induction es as [|e es IH]; simpl; intros w w' Hw H.
  - inversion H; subst; exact Hw.
  - destruct (step w e) as [w1|] eqn:E; [|discriminate].
    apply (IH w1 w'); [eapply reachable_step; eauto | exact H].
Qed.

(** Short of a close, nothing takes the success display away. *)
Lemma step_keeps_success (w w' : World) (e : Event) :
  is_close e = false -> isSuccess (cells w) = true ->
  step w e = Some w' -> isSuccess (cells w') = true.
Proof.
  intros Hc Hs H. destruct e; unfold step in H; simpl in Hc.
  - destruct (Props_eqb p (props w)); inversion H; subst; simpl; auto.
    rewrite resetEffect_isSuccess, Hs.
    destruct (isOpen p); [reflexivity | discriminate].
  - destruct (isOpen (props w)); inversion H; subst; simpl; auto.
  - destruct (render (props w) (cells w)); inversion H; subst; simpl; auto.
  - destruct (render (props w) (cells w)); inversion H; subst; simpl; auto.
  - destruct (render (props w) (cells w)) as [| |b su] eqn:R; try discriminate.
    apply render_form in R as (_ & R & _). congruence.
  - destruct (render (props w) (cells w)) as [| |b su] eqn:R; try discriminate.
    apply render_form in R as (_ & R & _). congruence.
  - destruct (render (props w) (cells w)) as [| |b su] eqn:R; try discriminate.
    apply render_form in R as (_ & R & _). congruence.
  - destruct (render (props w) (cells w)) as [| |b su] eqn:R; try discriminate.
    apply render_form in R as (_ & R & _). congruence.
  - destruct (render (props w) (cells w)) as [| |b su] eqn:R; try discriminate.
    apply render_form in R as (_ & R & _). congruence.
  - destruct (pending w) as [|c rest]; try discriminate.
    pose proof (handleSubmit_settle_isSuccess r (cells w)) as F.
    destruct (handleSubmit_settle r (cells w)) as [s' timer]. simpl in F.
    inversion H; subst; simpl. rewrite F, Hs. destruct r as [[err|]|]; auto.
  - inversion H; subst; simpl; auto.
  - destruct (timers w) as [|due rest]; try discriminate.
    destruct (N.leb due (clock w)); inversion H; subst; simpl; auto.
Qed.

Lemma step_success (w w' : World) (e : Event) :
  Inv w -> is_success e = true -> step w e = Some w' ->
  isSuccess (cells w) = false /\ isSuccess (cells w') = true.
Proof.
  intros [_ Hsuc] He H. destruct e as [| | | | | | | | |r| |]; try discriminate.
  destruct r as [[err|]|]; try discriminate. unfold step in H.
  destruct (pending w) as [|c rest] eqn:P; try discriminate.
  inversion H; subst; simpl. split; [|reflexivity].
  destruct (isSuccess (cells w)); [|reflexivity].
  specialize (Hsuc eq_refl). discriminate.
Qed.

(** Within one life of the modal the success display bounds the successes
    still to come. *)
Lemma lifecycle_bound (es : list Event) :
  forall w wn,
    Inv w -> one_lifecycle es = true -> run w es = Some wn ->
    successes es <= (if isSuccess (cells w) then 0 else 1).
Proof.
  unfold successes, one_lifecycle.
  induction es as [|e es IH]; intros w wn HI Hl Hr; simpl in *; [lia|].
  apply andb_true_iff in Hl as [Hc Hl]. apply negb_true_iff in Hc.
  destruct (step w e) as [w1|] eqn:E; [|discriminate].
  pose proof (step_Inv w w1 e HI E) as HI1.
  specialize (IH w1 wn HI1 Hl Hr).
  destruct (is_success e) eqn:Se; simpl.
  - destruct (step_success w w1 e HI Se E) as [-> F]. rewrite F in IH. lia.
  - destruct (isSuccess (cells w)) eqn:Sw.
    + rewrite (step_keeps_success w w1 e Hc Sw E) in IH. exact IH.
    + destruct (isSuccess (cells w1)); lia.
Qed.

Lemma world_in_flight_reachable : reachable world_in_flight.
Proof.
  apply (run_reachable
           [Change n_email (js "a@b.co"); Change n_password (js "abcdef");
            SubmitForm]
           (mount (mkProps true signin))).
  - apply reachable_mount.
  - reflexivity.
Qed.

(** C8: at most one submission is in flight at any time.  While a call is
    awaited the submitting flag is set, a rendered form has its submit
    control disabled and no submission can begin; a submission that
    contacts the remote service sets the flag and is then the only call in
    flight; and whatever the outcome of the call (success, remote error or
    exception) its settlement clears the flag and leaves no call in
    flight. *)
Theorem single_submission_in_flight :
  forall w : World,
    reachable w ->
    List.length (pending w) <= 1
    /\ (pending w <> [] ->
        isSubmitting (cells w) = true
        /\ (forall b su, render (props w) (cells w) = Form b su -> b = true)
        /\ step w SubmitForm = None)
    /\ (forall w', step w SubmitForm = Some w' -> sent w' <> sent w ->
                   pending w = []
                   /\ List.length (pending w') = 1
                   /\ isSubmitting (cells w') = true)
    /\ (forall r w', step w (CallSettles r) = Some w' ->
                     isSubmitting (cells w') = false /\ pending w' = [])
    /\ (forall r s, isSubmitting (fst (handleSubmit_settle r s)) = false).
Proof.
  intros w Hw. pose proof (reachable_Inv w Hw) as [Hlen Hsuc].
  split; [destruct (isSubmitting (cells w)); lia|].
  split; [|split; [|split]].
  - intros Hp.
    assert (Hs : isSubmitting (cells w) = true).
    { destruct (isSubmitting (cells w)); [reflexivity|].
      apply length_zero_iff_nil in Hlen. contradiction. }
    split; [exact Hs|]. split.
    + intros b su R. apply render_form in R as (_ & _ & R). congruence.
    + unfold step. destruct (render (props w) (cells w)) as [| |[|] su] eqn:R;
        try reflexivity.
      apply render_form in R as (_ & _ & R). congruence.
  - intros w' H Hsent.
    pose proof (step_Inv w w' SubmitForm (conj Hlen Hsuc) H) as [Hlen' _].
    unfold step in H.
    destruct (render (props w) (cells w)) as [| |[|] su] eqn:R;
      try discriminate.
    apply render_form in R as (_ & _ & R). rewrite R in Hlen.
    apply length_zero_iff_nil in Hlen.
    destruct (handleSubmit_begin_flags (cells w)) as [_ F].
    destruct (handleSubmit_begin (cells w)) as [s' [c|]]; simpl in F;
      inversion H; subst; simpl in *.
    + rewrite Hlen. auto.
    + rewrite app_nil_r in Hsent. contradiction.
  - intros r w' H.
    pose proof (step_Inv w w' (CallSettles r) (conj Hlen Hsuc) H) as [Hlen' _].
    unfold step in H. destruct (pending w) as [|c rest]; try discriminate.
    pose proof (handleSubmit_settle_isSubmitting r (cells w)) as F.
    destruct (handleSubmit_settle r (cells w)) as [s' timer]. simpl in F.
    inversion H; subst; simpl in *. rewrite F in Hlen'.
    apply length_zero_iff_nil in Hlen'. auto.
  - apply handleSubmit_settle_isSubmitting.
Qed.

(** C8 while the sign-in call of [world_in_flight] is awaited. *)
Lemma single_submission_in_flight_witness :
  List.length (pending world_in_flight) <= 1
  /\ step world_in_flight SubmitForm = None.
Proof.
  pose proof (single_submission_in_flight world_in_flight
                world_in_flight_reachable) as (H1 & H2 & _).
  split; [exact H1|].
  apply H2. discriminate.
Defined.

(** C7: when the awaited call resolves without error, the success flag is
    set, so an open modal shows the success display; a timer is set for
    1500 ms later and [onClose] is not called yet.  That timer cannot fire
    before its time, and when it fires it calls [onClose] exactly once and
    is gone.  In one life of the modal (the events up to the next close) at
    most one call settles successfully. *)
Theorem success_closes_once_after_delay :
  forall w : World,
    reachable w ->
    (pending w <> [] ->
     exists w',
       step w (CallSettles (Resolved None)) = Some w'
       /\ isSuccess (cells w') = true
       /\ (isOpen (props w') = true ->
           render (props w') (cells w') = SuccessDisplay)
       /\ timers w' = timers w ++ [(clock w + 1500)%N]
       /\ closeCalls w' = closeCalls w)
    /\ (forall due rest,
          timers w = due :: rest ->
          if N.leb due (clock w)
          then exists w',
                 step w TimerFires = Some w'
                 /\ closeCalls w' = S (closeCalls w)
                 /\ timers w' = rest
          else step w TimerFires = None)
    /\ (forall es wn,
          one_lifecycle es = true -> run w es = Some wn -> successes es <= 1).
Proof.
  intros w Hw. split; [|split].
  - intros Hp. unfold step. destruct (pending w) as [|c rest]; [congruence|].
    simpl. eexists; split; [reflexivity|]. simpl.
    repeat split. intros Ho. unfold render; simpl. rewrite Ho. reflexivity.
  - intros due rest Ht. unfold step. rewrite Ht.
    destruct (N.leb due (clock w)); [|reflexivity].
    eexists; split; [reflexivity|]. simpl. auto.
  - intros es wn Hl Hr.
    pose proof (lifecycle_bound es w wn (reachable_Inv w Hw) Hl Hr) as H.
    destruct (isSuccess (cells w)); lia.
Qed.

(** C7 when the sign-in call of [world_in_flight] resolves. *)
Lemma success_closes_once_after_delay_witness :
  exists w',
    step world_in_flight (CallSettles (Resolved None)) = Some w'
    /\ isSuccess (cells w') = true
    /\ (isOpen (props w') = true ->
        render (props w') (cells w') = SuccessDisplay)
    /\ timers w' = timers world_in_flight ++ [(clock world_in_flight + 1500)%N]
    /\ closeCalls w' = closeCalls world_in_flight.
Proof.
  apply (proj1 (success_closes_once_after_delay world_in_flight
                  world_in_flight_reachable)).
  discriminate.
Defined.

(** The whole success path from [world_in_flight]: the call resolves, the
    timer does not fire at 1499 ms, fires at 1500 ms, and [onClose] has
    then been called once. *)
Lemma success_path_runs :
  step world_in_flight (CallSettles (Resolved None))
  = Some (mkWorld (mkProps true signin)
            (mkState signin (FormData.mk (js "a@b.co") (js "abcdef") [] [])
               FormErrors.empty false true false false)
            [] [signIn (js "a@b.co") (js "abcdef")] 0%N [1500%N] 0)
  /\ run world_in_flight
       [CallSettles (Resolved None); TimePasses 1499; TimerFires] = None
  /\ option_map closeCalls
       (run world_in_flight
          [CallSettles (Resolved None); TimePasses 1500; TimerFires]) = Some 1
  /\ run world_in_flight
       [CallSettles (Resolved None); TimePasses 1500; TimerFires; TimerFires]
     = None.
Proof. repeat split; reflexivity. Qed.

(** C4, as amended: when the parent closes an open modal, the reset effect
    empties the four text fields, removes every error, lowers the success
    flag and sets the mode to [initialMode]; the two visibility flags and
    the submitting flag keep their values, and so does everything outside
    the component's cells. *)
Theorem close_resets_form :
  forall (w : World) (im : Mode),
    isOpen (props w) = true ->
    step w (ParentRenders (mkProps false im))
    = Some (mkWorld (mkProps false im)
              (mkState im FormData.blank FormErrors.empty
                 (isSubmitting (cells w)) false
                 (showPassword (cells w)) (showConfirmPassword (cells w)))
              (pending w) (sent w) (clock w) (timers w) (closeCalls w)).
Proof.
  intros w im Ho. unfold step, Props_eqb. simpl. rewrite Ho. reflexivity.
Qed.

(** C4 at [world_revealed]. *)
Lemma close_resets_form_witness :
  step world_revealed (ParentRenders (mkProps false signin))
  = Some (mkWorld (mkProps false signin)
            (mkState signin FormData.blank FormErrors.empty false false
               true false)
            [] [] 0%N [] 0).
Proof. apply (close_resets_form world_revealed signin). reflexivity. Defined.

(** C4 as stated fails: after revealing the password and closing the
    modal, the password-visibility flag is still up. *)
Lemma close_keeps_password_visible :
  exists w',
    run (mount (mkProps true signin))
      [Change n_password (js "hunter12"); ClickShowPassword;
       ParentRenders (mkProps false signin)] = Some w'
    /\ showPassword (cells w') = true
    /\ ~ reset_on_close (props w') (cells w').
Proof.
  eexists. split; [reflexivity|]. split; [reflexivity|].
  intros (_ & _ & _ & H & _). discriminate H.
Qed.

End RuntimeFacts.

(** ** The backend *)

Module SqlFacts.

Import Sql AccessSpec SqlNotions.

Local Open Scope string_scope.

Lemma is_true_or (a b : tri) : is_true (sql_or a b) = is_true a || is_true b.
Proof. destruct a as [[|]|], b as [[|]|]; reflexivity. Qed.

Lemma is_true_and (a b : tri) : is_true (sql_and a b) = is_true a && is_true b.
Proof. destruct a as [[|]|], b as [[|]|]; reflexivity. Qed.

Lemma is_true_Some (b : bool) : is_true (Some b) = b.
Proof. destruct b; reflexivity. Qed.

Lemma is_true_eq_uuid (a b : option uuid) :
  is_true (eq_uuid a b) = true <-> exists u, a = Some u /\ b = Some u.
Proof.
  destruct a as [x|], b as [y|]; simpl;
    try (split; [discriminate | intros (u & H1 & H2); discriminate]).
  destruct (N.eqb_spec x y) as [->|Hn]; split; try discriminate; eauto.
  intros (u & H1 & H2). congruence.
Qed.

Lemma is_true_eq_text (a b : option text) :
  is_true (eq_text a b) = true <-> exists e, a = Some e /\ b = Some e.
Proof.
  destruct a as [x|], b as [y|]; simpl;
    try (split; [discriminate | intros (u & H1 & H2); discriminate]).
  destruct (String.eqb_spec x y) as [->|Hn]; split; try discriminate; eauto.
  intros (u & H1 & H2). congruence.
Qed.

Lemma is_true_reserved (a : option text) :
  is_true (in_list a reserved_admins) = true
  <-> exists e, a = Some e
                /\ (e = "admin@showgo.com" \/ e = "support@showgo.com").
Proof.
  unfold reserved_admins. cbn [in_list].
  rewrite !is_true_or, !orb_true_iff, !is_true_eq_text. simpl. split.
  - intros [(e & H1 & H2) | [(e & H1 & H2) | H]]; try discriminate;
      exists e; split; auto; inversion H2; auto.
  - intros (e & -> & [-> | ->]); eauto.
Qed.

Lemma find_by_key (l : list Profile) (p : Profile) :
  NoDup (map id l) -> In p l ->
  find (fun q => N.eqb (id q) (id p)) l = Some p.
Proof.
  induction l as [|x l IH]; simpl; intros Hnd Hin; [contradiction|].
  inversion Hnd as [|? ? Hx Hl]; subst.
  destruct Hin as [-> | Hin]; [rewrite N.eqb_refl; reflexivity|].
  destruct (N.eqb_spec (id x) (id p)) as [E | _]; [|auto].
  exfalso; apply Hx. rewrite E. apply in_map; exact Hin.
Qed.

Lemma own_054800_holds (s : Session) (L : Lookups) (r : Registration) :
  is_true (holds own_054800 s L r) = true
  <-> registrant s r \/ email_found L r.
Proof.
  unfold own_054800, registrant, email_found. cbn [holds].
  rewrite is_true_or, orb_true_iff, is_true_eq_uuid, is_true_eq_text.
  split; (intros [H | (e & H1 & H2)]; [left; exact H | right; eauto]).
Qed.

Lemma admin_054800_holds (s : Session) (L : Lookups) (r : Registration) :
  is_true (holds admin_054800 s L r) = true
  <-> admin_found L \/ admin_by_token s.
Proof.
  unfold admin_054800, admin_found, admin_by_token. cbn [holds].
  rewrite !is_true_or, !orb_true_iff, is_true_Some, is_true_reserved,
    is_true_eq_text.
  split.
  - intros [[H | (e & -> & [-> | ->])] | (e & H1 & H2)]; auto.
    inversion H2; subst. auto.
  - intros [[H | [H | H]] | H]; eauto 6.
Qed.

(** What the two migrations leave on the table: the five policies of the
    later one. *)
Lemma deployed_policies_eq :
  deployed_policies
  = Some [ mkPolicy "Users can view their own registrations"
             SELECT authenticated own_054800;
           mkPolicy "Users can insert their own registrations"
             INSERT authenticated own_054800;
           mkPolicy "Users can update their own registrations"
             UPDATE authenticated own_054800;
           mkPolicy "Users can delete their own registrations"
             DELETE authenticated own_054800;
           mkPolicy "Admins can view all registrations"
             SELECT authenticated admin_054800 ].
Proof. reflexivity. Qed.

(** What the deployed policies make of a row for an authenticated
    session, the sub-selects being answered by [L]. *)
Lemma accepts_deployed (cat : list Policy) (s : Session) (c : Command)
    (L : Lookups) (r : Registration) :
  deployed_policies = Some cat ->
  pg_role s = authenticated ->
  accepts cat s c L r
  = is_true (holds own_054800 s L r)
    || match c with
       | SELECT => is_true (holds admin_054800 s L r)
       | _ => false
       end.
Proof.
  rewrite deployed_policies_eq. intros H Hs. inversion H; subst cat.
  unfold accepts, applies. cbn [existsb polcmd polrole polexpr].
  rewrite Hs.
  destruct c; cbn [Command_eqb PgRole_eqb andb orb];
    destruct (is_true (holds own_054800 s L r)); cbn [orb];
    rewrite ?orb_false_r; reflexivity.
Qed.

(** C6, as amended: for an authenticated session and whatever the
    look-ups in [user_profiles] answer, the expressions of the deployed
    policies accept a registration for SELECT exactly when the session is
    the registrant, the profile email found is the registration's email,
    or the session is an admin, where admin means that a profile of role
    'admin' was found, that the profile email found is one of the two
    reserved addresses, or that the token has the role claim 'admin'; they
    accept it for INSERT, UPDATE and DELETE exactly when the session is the
    registrant or the profile email found is the registration's email.
    Whether the look-ups themselves go through is no part of this. *)
Theorem registrations_access :
  forall (s : Session) (L : Lookups) (r : Registration),
    pg_role s = authenticated ->
    exists cat,
      deployed_policies = Some cat
      /\ (accepts cat s SELECT L r = true
          <-> registrant s r \/ email_found L r
              \/ admin_found L \/ admin_by_token s)
      /\ (forall c,
            c = INSERT \/ c = UPDATE \/ c = DELETE ->
            (accepts cat s c L r = true
             <-> registrant s r \/ email_found L r)).
Proof.
  intros s L r Hs. eexists. split; [apply deployed_policies_eq|].
  split.
  - rewrite (accepts_deployed _ s SELECT L r deployed_policies_eq Hs),
      orb_true_iff, own_054800_holds, admin_054800_holds. tauto.
  - intros c Hc.
    rewrite (accepts_deployed _ s c L r deployed_policies_eq Hs).
    destruct Hc as [-> | [-> | ->]]; rewrite orb_false_r;
      apply own_054800_holds.
Qed.

(** C6 at the admin of [db_two] and Ann's registration. *)
Lemma registrations_access_witness :
  exists cat,
    deployed_policies = Some cat
    /\ (accepts cat admin_session SELECT admin_lookups ann_registration = true
        <-> registrant admin_session ann_registration
            \/ email_found admin_lookups ann_registration
            \/ admin_found admin_lookups \/ admin_by_token admin_session)
    /\ (forall c,
          c = INSERT \/ c = UPDATE \/ c = DELETE ->
          (accepts cat admin_session c admin_lookups ann_registration = true
           <-> registrant admin_session ann_registration
               \/ email_found admin_lookups ann_registration)).
Proof.
  apply (registrations_access admin_session admin_lookups ann_registration).
  reflexivity.
Defined.

(** What the two migrations leave in the catalog. *)
Lemma deployed_schema_eq (auth_readable : bool) :
  deployed_schema auth_readable
  = Some (mkSchema true true
            [ mkProfilePolicy "Users can view their own profile" SELECT
                authenticated uid_is_id;
              mkProfilePolicy "Users can update their own profile" UPDATE
                authenticated uid_is_id;
              mkProfilePolicy "Admins can view all profiles" SELECT
                authenticated admin_profile_exists;
              mkProfilePolicy "Admins can update all profiles" UPDATE
                authenticated admin_profile_exists ]
            [ mkPolicy "Users can view their own registrations"
                SELECT authenticated own_054800;
              mkPolicy "Users can insert their own registrations"
                INSERT authenticated own_054800;
              mkPolicy "Users can update their own registrations"
                UPDATE authenticated own_054800;
              mkPolicy "Users can delete their own registrations"
                DELETE authenticated own_054800;
              mkPolicy "Admins can view all registrations"
                SELECT authenticated admin_054800 ]
            auth_readable).
Proof. reflexivity. Qed.

(** C6 as stated fails: the admin of [db_two] has access to Ann's
    registration by the specification, yet no INSERT, UPDATE or DELETE of
    that session reaches the row.  As deployed the command raises an
    error, and with the look-ups answered from the tables the write
    policies still reject the row, for there is no admin policy but the
    one for SELECT. *)
Lemma admin_cannot_write :
  has_access db_two admin_session ann_registration
  /\ granted db_two admin_session INSERT ann_registration = false
  /\ granted db_two admin_session UPDATE ann_registration = false
  /\ granted db_two admin_session DELETE ann_registration = false
  /\ (exists sch,
        deployed_schema false = Some sch
        /\ access sch db_two admin_session UPDATE ann_registration
           = inl infinite_recursion)
  /\ (exists cat,
        deployed_policies = Some cat
        /\ accepts cat admin_session SELECT admin_lookups ann_registration
           = true
        /\ accepts cat admin_session INSERT admin_lookups ann_registration
           = false
        /\ accepts cat admin_session UPDATE admin_lookups ann_registration
           = false
        /\ accepts cat admin_session DELETE admin_lookups ann_registration
           = false).
Proof.
  split.
  { right; right; left.
    exists (mkProfile 1%N (Some "Boss") (Some "boss@corp.example")
              (Some "admin")).
    split; [split; [simpl; auto | reflexivity] | reflexivity]. }
  repeat split; try reflexivity.
  - eexists. split; reflexivity.
  - eexists. repeat split; reflexivity.
Qed.

(** The earlier migration, taken alone, gives admins no more: its admin
    policy is for SELECT only, too. *)
Lemma admin_policy_is_select_only (v : Migration) (p : Policy) :
  In (CREATE_POLICY p) (statements v) ->
  polname p = "Admins can view all registrations" -> polcmd p = SELECT.
Proof.
  destruct v; simpl; intros H E;
    repeat (destruct H as [H | H];
            [try discriminate H; inversion H; subst; simpl in *;
             try reflexivity; discriminate E|]);
    contradiction.
Qed.

Lemma existsb_snoc_key (l : list AuthUser) (u : AuthUser) :
  existsb (fun a => N.eqb (au_id a) (au_id u)) (l ++ [u]) = true.
Proof.
  rewrite existsb_app. simpl. rewrite N.eqb_refl, orb_true_r. reflexivity.
Qed.

Lemma find_key_text (k : text) (kv : jsonb) :
  match find (fun p => String.eqb (fst p) k) kv with
  | Some (_, v) => key_text k kv v
  | None => forall v, ~ In (k, v) kv
  end.
Proof.
  induction kv as [|[k0 v0] kv IH]; simpl; [tauto|].
  destruct (String.eqb_spec k0 k) as [-> | Hn].
  - constructor.
  - destruct (find (fun p => String.eqb (fst p) k) kv) as [[k1 v1]|].
    + constructor; assumption.
    + intros v [E | Hin]; [inversion E; congruence | exact (IH v Hin)].
Qed.

Lemma key_text_in (k : text) (kv : jsonb) (v : option text) :
  key_text k kv v -> In (k, v) kv.
Proof. induction 1; simpl; auto. Qed.

Lemma key_text_fun (k : text) (kv : jsonb) (v v' : option text) :
  key_text k kv v -> key_text k kv v' -> v = v'.
Proof.
  induction 1; intros H'; inversion H'; subst; auto; congruence.
Qed.

(** The full name the trigger writes is the one the metadata determine. *)
Lemma json_full_name (meta : option jsonb) :
  metadata_full_name meta (coalesce (json_text meta "full_name") "").
Proof.
  destruct meta as [kv|]; simpl; [|constructor].
  pose proof (find_key_text "full_name" kv) as H.
  destruct (find (fun p => String.eqb (fst p) "full_name") kv) as [[k v]|].
  - destruct v as [n|]; simpl; [apply name_text | apply name_null]; exact H.
  - apply name_no_key; exact H.
Qed.

Lemma metadata_full_name_fun (meta : option jsonb) (a b : text) :
  metadata_full_name meta a -> metadata_full_name meta b -> a = b.
Proof.
  intros Ha Hb.
  inversion Ha; subst; inversion Hb; subst; try reflexivity;
    repeat match goal with
           | H : Some _ = Some _ |- _ => inversion H; subst; clear H
           end;
    try match goal with
        | H : forall v, ~ In _ _, K : key_text _ _ _ |- _ =>
            exfalso; exact (H _ (key_text_in _ _ _ K))
        end;
    match goal with
    | K1 : key_text _ ?kv _, K2 : key_text _ ?kv _ |- _ =>
        pose proof (key_text_fun _ _ _ _ K1 K2) as E; inversion E; congruence
    end.
Qed.

(** C5, as amended: when an account row is created, the trigger function
    runs once for it and tries to insert one profile: the account's id
    and email, the full name of the metadata or the empty string, and the
    role 'user'.  An error of the INSERT that WHEN OTHERS traps, which is
    every error but QUERY_CANCELED and ASSERT_FAILURE, is caught: a
    warning is logged, the function still returns the row and the
    creation of the account goes through; an error of those two kinds
    leaves the function and aborts the creation of the account.  Under the
    constraints of the profile table every error of the INSERT is trapped:
    the account row is always stored, exactly one profile row is added
    when the id had no profile yet, and otherwise none is added and the
    warning is logged. *)
Theorem profile_trigger_fails_open :
  forall (v : Migration) (NEW : AuthUser) (db : Db),
    exists name,
      metadata_full_name (raw_user_meta_data NEW) name
      /\ (forall n, metadata_full_name (raw_user_meta_data NEW) n -> n = name)
      /\ (forall ins : Db -> Profile -> SqlError + Db,
            create_user_profile ins v NEW db
            = match ins db (new_profile NEW name) with
              | inr db' => (db', Return NEW)
              | inl e =>
                  if trapped_by_others e
                  then (raise_warning
                          (mkWarning (warning_format v) (au_id NEW) e) db,
                        Return NEW)
                  else (db, Raise e)
              end)
      /\ (forall ins : Db -> Profile -> SqlError + Db,
            insert_auth_user ins v NEW db
            = match ins (with_account NEW db) (new_profile NEW name) with
              | inr db' => inr db'
              | inl e =>
                  if trapped_by_others e
                  then inr (raise_warning
                              (mkWarning (warning_format v) (au_id NEW) e)
                              (with_account NEW db))
                  else inl e
              end)
      /\ exists db',
           insert_auth_user insert_profile v NEW db = inr db'
           /\ auth_users db' = (auth_users db ++ [NEW])%list
           /\ registrations db' = registrations db
           /\ if existsb (fun p => N.eqb (id p) (au_id NEW)) (user_profiles db)
              then user_profiles db' = user_profiles db
                   /\ server_log db'
                      = (server_log db
                         ++ [mkWarning (warning_format v) (au_id NEW)
                               unique_violation])%list
              else user_profiles db'
                   = (user_profiles db ++ [new_profile NEW name])%list
                   /\ server_log db' = server_log db.
Proof.
  intros v NEW db.
  exists (coalesce (json_text (raw_user_meta_data NEW) "full_name") "").
  split; [apply json_full_name|].
  split; [intros n Hn; exact (metadata_full_name_fun _ _ _ Hn
                                (json_full_name _))|].
  split; [reflexivity|]. split.
  - intros ins. unfold insert_auth_user, create_user_profile.
    fold (with_account NEW db).
    change (mkProfile (au_id NEW)
              (Some (coalesce (json_text (raw_user_meta_data NEW) "full_name") ""))
              (au_email NEW) (Some "user"))
      with (new_profile NEW
              (coalesce (json_text (raw_user_meta_data NEW) "full_name") "")).
    destruct (ins _ _) as [e | db']; [|reflexivity].
    destruct (trapped_by_others e); reflexivity.
  - unfold insert_auth_user, create_user_profile, insert_profile.
    cbn [user_profiles auth_users registrations server_log id role].
    rewrite existsb_snoc_key. cbn [negb].
    destruct (existsb (fun p => N.eqb (id p) (au_id NEW)) (user_profiles db)).
    + eexists; split; [reflexivity|]. simpl. auto.
    + eexists; split; [reflexivity|]. simpl. auto.
Qed.

(** C5 as stated fails: an INSERT that is cancelled (SQLSTATE 57014, as
    by a statement timeout) raises an error that WHEN OTHERS does not
    trap; it leaves the trigger function and the account is not created. *)
Lemma cancelled_insert_blocks_account :
  trapped_by_others (other_error "57014") = false
  /\ create_user_profile (fun _ _ => inl (other_error "57014"))
       m20250808054800_sparkling_wildflower
       (mkAuthUser 3%N (Some "cy@mail.example") None) db_two
     = (db_two, Raise (other_error "57014"))
  /\ insert_auth_user (fun _ _ => inl (other_error "57014"))
       m20250808054800_sparkling_wildflower
       (mkAuthUser 3%N (Some "cy@mail.example") None) db_two
     = inl (other_error "57014").
Proof. repeat split; reflexivity. Qed.

(** A sign-up with a name in the metadata, and a second account row with
    the id of the first. *)
Lemma trigger_runs :
  insert_auth_user insert_profile m20250808054800_sparkling_wildflower
    (mkAuthUser 3%N (Some "cy@mail.example") (Some [("full_name", Some "Cy")]))
    db_two
  = inr (mkDb
           [ mkAuthUser 1%N (Some "boss@corp.example") None;
             mkAuthUser 2%N (Some "ann@mail.example") None;
             mkAuthUser 3%N (Some "cy@mail.example")
               (Some [("full_name", Some "Cy")]) ]
           [ mkProfile 1%N (Some "Boss") (Some "boss@corp.example") (Some "admin");
             mkProfile 2%N (Some "Ann") (Some "ann@mail.example") (Some "user");
             mkProfile 3%N (Some "Cy") (Some "cy@mail.example") (Some "user") ]
           [ mkRegistration (Some 2%N) (Some "ann@mail.example") ]
           [])
  /\ insert_auth_user insert_profile m20250808054800_sparkling_wildflower
       (mkAuthUser 2%N (Some "dup@mail.example") None) db_two
     = inr (mkDb
              [ mkAuthUser 1%N (Some "boss@corp.example") None;
                mkAuthUser 2%N (Some "ann@mail.example") None;
                mkAuthUser 2%N (Some "dup@mail.example") None ]
              (user_profiles db_two)
              (registrations db_two)
              [ mkWarning "Could not create user profile for %: %" 2%N
                  unique_violation ]).
Proof. split; reflexivity. Qed.

End SqlFacts.

(** ** More on validation *)

Module ValidationExtras.

Import AuthModal Spec ValidationFacts Notions.

(** A key in [newErrors] stops [handleSubmit] before the call. *)
Lemma begin_blocked (s : State) :
  FormErrors.keys_length (newErrors (mode s) (formData s)) <> 0 ->
  handleSubmit_begin s = (setErrors (newErrors (mode s) (formData s)) s, None).
Proof.
  intros H. rewrite HandlerFacts.handleSubmit_begin_eq.
  apply Nat.eqb_neq in H. rewrite H. reflexivity.
Qed.

Lemma key_blocks (s : State) (name : FieldName) (m : jsstring) :
  FormErrors.get (newErrors (mode s) (formData s)) name = Some m ->
  FormErrors.keys_length (newErrors (mode s) (formData s)) <> 0.
Proof.
  intros H E. apply keys_length_zero in E as (E1 & E2 & E3 & E4 & _).
  destruct name; simpl in H; congruence.
Qed.

(** X1: a password of fewer than 6 characters never reaches the remote
    service: no call is made and the password field gets "Password is
    required" when it is empty and "Password must be at least 6
    characters" otherwise, in either mode. *)
Theorem short_password_blocks_submit :
  forall s : State,
    List.length (FormData.password (formData s)) < 6 ->
    snd (handleSubmit_begin s) = None
    /\ FormErrors.password (errors (fst (handleSubmit_begin s)))
       = Some match FormData.password (formData s) with
              | [] => js "Password is required"
              | _ :: _ => js "Password must be at least 6 characters"
              end.
Proof.
  intros s Hlen.
  assert (Hp : FormErrors.password (newErrors (mode s) (formData s))
               = Some match FormData.password (formData s) with
                      | [] => js "Password is required"
                      | _ :: _ => js "Password must be at least 6 characters"
                      end).
  { rewrite newErrors_password.
    destruct (FormData.password (formData s)) as [|c p] eqn:E;
      cbn [Js.truthy negb]; [reflexivity|].
    destruct (Nat.ltb_spec (List.length (c :: p)) 6); [reflexivity | lia]. }
  rewrite (begin_blocked s (key_blocks s n_password _ Hp)). simpl.
  split; [reflexivity | exact Hp].
Qed.

Lemma short_password_blocks_submit_witness :
  snd (handleSubmit_begin
         (mkState signin (FormData.mk (js "a@b.co") (js "abc") [] [])
            FormErrors.empty false false false false)) = None
  /\ FormErrors.password
       (errors (fst (handleSubmit_begin
                       (mkState signin (FormData.mk (js "a@b.co") (js "abc") [] [])
                          FormErrors.empty false false false false))))
     = Some (js "Password must be at least 6 characters").
Proof.
  apply (short_password_blocks_submit
           (mkState signin (FormData.mk (js "a@b.co") (js "abc") [] [])
              FormErrors.empty false false false false)).
  simpl. lia.
Defined.

(** X2: in signup mode a confirm-password that differs from the password
    blocks the submission, whatever the other fields hold: no call is
    made and the confirm field gets "Please confirm your password" when it
    is empty and "Passwords do not match" otherwise. *)
Theorem confirm_mismatch_blocks_submit :
  forall s : State,
    mode s = signup ->
    FormData.confirmPassword (formData s) <> FormData.password (formData s) ->
    snd (handleSubmit_begin s) = None
    /\ FormErrors.confirmPassword (errors (fst (handleSubmit_begin s)))
       = Some match FormData.confirmPassword (formData s) with
              | [] => js "Please confirm your password"
              | _ :: _ => js "Passwords do not match"
              end.
Proof.
  intros s Hm Hne.
  assert (Hp : FormErrors.confirmPassword (newErrors (mode s) (formData s))
               = Some match FormData.confirmPassword (formData s) with
                      | [] => js "Please confirm your password"
                      | _ :: _ => js "Passwords do not match"
                      end).
  { rewrite newErrors_confirmPassword, Hm.
    destruct (FormData.confirmPassword (formData s)) as [|c p] eqn:E;
      cbn [Js.truthy negb]; [reflexivity|].
    destruct (Js.eqb (FormData.password (formData s)) (c :: p)) eqn:Q;
      [|reflexivity].
    apply JsFacts.eqb_eq in Q. congruence. }
  rewrite (begin_blocked s (key_blocks s n_confirmPassword _ Hp)). simpl.
  split; [reflexivity | exact Hp].
Qed.

Lemma confirm_mismatch_blocks_submit_witness :
  snd (handleSubmit_begin
         (mkState signup
            (FormData.mk (js "a@b.co") (js "abcdef") (js "Ann") (js "abcdeg"))
            FormErrors.empty false false false false)) = None
  /\ FormErrors.confirmPassword
       (errors (fst (handleSubmit_begin
                       (mkState signup
                          (FormData.mk (js "a@b.co") (js "abcdef") (js "Ann")
                             (js "abcdeg"))
                          FormErrors.empty false false false false))))
     = Some (js "Passwords do not match").
Proof.
  apply (confirm_mismatch_blocks_submit
           (mkState signup
              (FormData.mk (js "a@b.co") (js "abcdef") (js "Ann") (js "abcdeg"))
              FormErrors.empty false false false false)).
  - reflexivity.
  - discriminate.
Defined.

(** X3: in signin mode the full-name and confirm-password fields play no
    part: whatever they hold, validation gives the same errors and the
    same call, which carries the email and the password only. *)
Theorem signin_ignores_signup_fields :
  forall (s : State) (fn cp : jsstring),
    mode s = signin ->
    let s' := setFormData
                (FormData.mk (FormData.email (formData s))
                   (FormData.password (formData s)) fn cp) s in
    errors (fst (handleSubmit_begin s')) = errors (fst (handleSubmit_begin s))
    /\ snd (handleSubmit_begin s') = snd (handleSubmit_begin s)
    /\ (forall c, snd (handleSubmit_begin s) = Some c ->
                  c = signIn (FormData.email (formData s))
                        (FormData.password (formData s))).
Proof.
  intros s fn cp Hm s'.
  assert (E : newErrors (mode s') (formData s') = newErrors (mode s) (formData s)).
  { unfold s'. simpl. rewrite Hm. reflexivity. }
  rewrite !HandlerFacts.handleSubmit_begin_eq, E.
  destruct (Nat.eqb _ 0); simpl; repeat split; try discriminate.
  - unfold call_of, s'. simpl. rewrite Hm. reflexivity.
  - intros c H. inversion H. unfold call_of. rewrite Hm. reflexivity.
Qed.

Lemma signin_ignores_signup_fields_witness :
  snd (handleSubmit_begin
         (mkState signin
            (FormData.mk (js "a@b.co") (js "abcdef") (js " ") (js "zzz"))
            FormErrors.empty false false false false))
  = snd (handleSubmit_begin
           (mkState signin (FormData.mk (js "a@b.co") (js "abcdef") [] [])
              FormErrors.empty false false false false)).
Proof.
  exact (proj1 (proj2
           (signin_ignores_signup_fields
              (mkState signin (FormData.mk (js "a@b.co") (js "abcdef") [] [])
                 FormErrors.empty false false false false)
              (js " ") (js "zzz") eq_refl))).
Defined.

Lemma part_clean (l : jsstring) :
  forallb not_space_nor_at l = true ->
  count_at l = 0 /\ existsb Js.is_space l = false.
Proof.
  unfold count_at. induction l as [|c l IH]; simpl; intros H; [auto|].
  apply andb_true_iff in H as [Hc Hl]. destruct (IH Hl) as [IH1 IH2].
  unfold not_space_nor_at in Hc. apply negb_true_iff, orb_false_iff in Hc.
  destruct Hc as [Hs Ha]. apply N.eqb_neq in Ha.
  rewrite Hs, IH2. destruct (N.eq_dec c 64); [contradiction | auto].
Qed.

Lemma trimStart_id (s : jsstring) :
  existsb Js.is_space s = false -> Js.trimStart s = s.
Proof.
  destruct s as [|c r]; simpl; [reflexivity|].
  intros H. apply orb_false_iff in H as [-> _]. reflexivity.
Qed.

(** Trimming changes nothing in a string without white space. *)
Lemma trim_id (s : jsstring) : existsb Js.is_space s = false -> Js.trim s = s.
Proof.
  intros H. unfold Js.trim, Js.trimEnd. rewrite (trimStart_id s H).
  rewrite trimStart_id; [apply rev_involutive|].
  destruct (existsb Js.is_space (rev s)) eqn:E; [|reflexivity].
  apply existsb_exists in E as (x & Hx & Hs). apply in_rev in Hx.
  assert (existsb Js.is_space s = true) by (apply existsb_exists; eauto).
  congruence.
Qed.

Lemma matches_clean (e : jsstring) :
  Regex.matches emailRegex e = true ->
  count_at e = 1 /\ existsb Js.is_space e = false /\ Js.trim e = e.
Proof.
  intros H. apply emailRegex_shape in H.
  destruct H as (l & d & t & -> & (_ & Hl) & (_ & Hd) & (_ & Ht)).
  apply part_clean in Hl as [Hl1 Hl2], Hd as [Hd1 Hd2], Ht as [Ht1 Ht2].
  assert (Hsp : existsb Js.is_space (l ++ [64%N] ++ d ++ [46%N] ++ t) = false).
  { rewrite !existsb_app. simpl. rewrite ?existsb_app. simpl.
    unfold Js.unit16 in *. rewrite Hl2, Hd2, Ht2. reflexivity. }
  split; [|split; [exact Hsp | apply trim_id; exact Hsp]].
  unfold count_at in *. rewrite !count_occ_app. simpl.
  rewrite ?count_occ_app. simpl.
  unfold Js.unit16 in *. rewrite Hl1, Hd1, Ht1. reflexivity.
Qed.

(** X4: an address that the email pattern accepts contains exactly one [@]
    and no white space at all, so trimming would not change it. *)
Theorem accepted_email_is_clean :
  forall e : jsstring,
    Regex.matches emailRegex e = true ->
    count_at e = 1 /\ existsb Js.is_space e = false /\ Js.trim e = e.
Proof. exact matches_clean. Qed.

Lemma accepted_email_is_clean_witness :
  count_at (js "ann.lee@mail.example.org") = 1
  /\ existsb Js.is_space (js "ann.lee@mail.example.org") = false
  /\ Js.trim (js "ann.lee@mail.example.org") = js "ann.lee@mail.example.org".
Proof.
  apply (accepted_email_is_clean (js "ann.lee@mail.example.org")). reflexivity.
Defined.

(** X5: the email is validated as typed, not trimmed: an address with
    white space around it is rejected, no call is made and
    the email field gets an error. *)
Theorem padded_email_blocks_submit :
  forall s : State,
    Js.trim (FormData.email (formData s)) <> FormData.email (formData s) ->
    snd (handleSubmit_begin s) = None
    /\ FormErrors.email (errors (fst (handleSubmit_begin s)))
       = Some (if Js.truthy (Js.trim (FormData.email (formData s)))
               then js "Please enter a valid email address"
               else js "Email is required").
Proof.
  intros s Hpad.
  assert (Hp : FormErrors.email (newErrors (mode s) (formData s))
               = Some (if Js.truthy (Js.trim (FormData.email (formData s)))
                       then js "Please enter a valid email address"
                       else js "Email is required")).
  { rewrite newErrors_email.
    destruct (Js.truthy (Js.trim (FormData.email (formData s)))); simpl;
      [|reflexivity].
    destruct (Regex.matches emailRegex (FormData.email (formData s))) eqn:E;
      [|reflexivity].
    apply matches_clean in E as (_ & _ & E). contradiction. }
  rewrite (begin_blocked s (key_blocks s n_email _ Hp)). simpl.
  split; [reflexivity | exact Hp].
Qed.

Lemma padded_email_blocks_submit_witness :
  snd (handleSubmit_begin
         (mkState signin (FormData.mk (js " a@b.co") (js "abcdef") [] [])
            FormErrors.empty false false false false)) = None
  /\ FormErrors.email
       (errors (fst (handleSubmit_begin
                       (mkState signin
                          (FormData.mk (js " a@b.co") (js "abcdef") [] [])
                          FormErrors.empty false false false false))))
     = Some (js "Please enter a valid email address").
Proof.
  apply (padded_email_blocks_submit
           (mkState signin (FormData.mk (js " a@b.co") (js "abcdef") [] [])
              FormErrors.empty false false false false)).
  discriminate.
Defined.

End ValidationExtras.

(** ** More on the handlers *)

Module HandlerExtras.

Import AuthModal Spec Notions.

Lemma or_else_nonempty (m : option jsstring) (d : jsstring) :
  d <> [] -> Js.or_else m d <> [].
Proof. destruct m as [[|c r]|]; simpl; intros H; try exact H; discriminate. Qed.

(** The chain of [errorsOf] always ends in one message that is not empty. *)
Lemma errorsOf_one (err : AuthError) :
  exists m, m <> []
            /\ (errorsOf err = FormErrors.only_general m
                \/ errorsOf err = FormErrors.only_email m
                \/ errorsOf err = FormErrors.only_password m).
Proof.
  unfold errorsOf. HandlerFacts.split_includes; cbn [orb];
    try (eexists; split; [|eauto]; discriminate).
  eexists; split; [|eauto]. apply or_else_nonempty. discriminate.
Qed.

Lemma one_message (e : FormErrors.t) (m : jsstring) :
  m <> [] ->
  e = FormErrors.only_general m \/ e = FormErrors.only_email m
  \/ e = FormErrors.only_password m ->
  FormErrors.keys_length e = 1 /\ errors_printable e.
Proof.
  intros Hm [-> | [-> | ->]]; (split; [reflexivity|]);
    unfold errors_printable, shown_or_absent; simpl;
    repeat split; eauto.
Qed.

(** X6: whenever the awaited call fails, by a remote error or by an exception,
    the form ends with exactly one error message and that message is not
    empty; the success flag is not raised, no timer is set, the submitting
    flag is cleared and what the user typed stays. *)
Theorem failure_shows_one_message :
  forall (r : Settled) (s : State),
    r <> Resolved None ->
    snd (handleSubmit_settle r s) = None
    /\ isSuccess (fst (handleSubmit_settle r s)) = isSuccess s
    /\ isSubmitting (fst (handleSubmit_settle r s)) = false
    /\ FormErrors.keys_length (errors (fst (handleSubmit_settle r s))) = 1
    /\ errors_printable (errors (fst (handleSubmit_settle r s)))
    /\ formData (fst (handleSubmit_settle r s)) = formData s
    /\ mode (fst (handleSubmit_settle r s)) = mode s.
Proof.
  intros r s Hr. destruct r as [[err|]|]; [| congruence |]; simpl.
  - destruct (errorsOf_one err) as (m & Hm & H).
    destruct (one_message (errorsOf err) m Hm H). auto 10.
  - repeat split; unfold shown_or_absent; eauto.
    right. eexists; split; [reflexivity | discriminate].
Qed.

Lemma failure_shows_one_message_witness :
  FormErrors.keys_length
    (errors (fst (handleSubmit_settle (Resolved (Some (mkAuthError None)))
                    (initialState (mkProps true signin))))) = 1.
Proof.
  apply (failure_shows_one_message (Resolved (Some (mkAuthError None)))
           (initialState (mkProps true signin))).
  discriminate.
Defined.

(** X7: edits of different fields commute, and of two edits of the same field
    the later one wins: the form data and the errors after a series of
    edits do not depend on the order in which the fields were filled. *)
Theorem edits_commute :
  forall (n1 n2 : FieldName) (v1 v2 : jsstring) (s : State),
    (FieldName_eqb n1 n2 = false ->
     handleInputChange n1 v1 (handleInputChange n2 v2 s)
     = handleInputChange n2 v2 (handleInputChange n1 v1 s))
    /\ handleInputChange n1 v1 (handleInputChange n1 v2 s)
       = handleInputChange n1 v1 s.
Proof.
  intros n1 n2 v1 v2 [m [e p f c] [ee ep ef ec eg] sub suc sp scp].
  split.
  - intros H. destruct n1, n2; try discriminate H;
      unfold handleInputChange; simpl;
      destruct ee as [[|]|], ep as [[|]|], ef as [[|]|], ec as [[|]|];
      reflexivity.
  - destruct n1; unfold handleInputChange; simpl;
      destruct ee as [[|]|], ep as [[|]|], ef as [[|]|], ec as [[|]|];
      reflexivity.
Qed.

Lemma edits_commute_witness :
  handleInputChange n_email (js "a@b.co")
    (handleInputChange n_password (js "abcdef")
       (initialState (mkProps true signin)))
  = handleInputChange n_password (js "abcdef")
      (handleInputChange n_email (js "a@b.co")
         (initialState (mkProps true signin))).
Proof.
  apply (proj1 (edits_commute n_email n_password (js "a@b.co") (js "abcdef")
                  (initialState (mkProps true signin)))).
  reflexivity.
Defined.

(** X8: switching the mode twice comes back to the mode and the email one
    started from, but not to what was typed elsewhere: the password, the
    full name and the confirm-password stay empty and the errors stay
    removed.  A third switch equals the first. *)
Theorem switchMode_twice :
  forall s : State,
    mode (switchMode (switchMode s)) = mode s
    /\ formData (switchMode (switchMode s))
       = FormData.mk (FormData.email (formData s)) [] [] []
    /\ errors (switchMode (switchMode s)) = FormErrors.empty
    /\ switchMode (switchMode (switchMode s)) = switchMode s.
Proof.
  intros [m d e sub suc sp scp]. destruct m; repeat split.
Qed.

End HandlerExtras.

(** ** More on the mounted component *)

Module RuntimeExtras.

Import AuthModal Spec Runtime Notions RuntimeFacts.

(** Case analysis of one step. *)
Ltac step_inv H :=
  unfold step in H;
  repeat match type of H with
         | context [match ?x with _ => _ end] => destruct x eqn:?
         end;
  try discriminate H; inversion H; subst; clear H.

Lemma handleInputChange_frame (name : FieldName) (v : jsstring) (s : State) :
  showPassword (handleInputChange name v s) = showPassword s
  /\ showConfirmPassword (handleInputChange name v s) = showConfirmPassword s
  /\ mode (handleInputChange name v s) = mode s.
Proof.
  unfold handleInputChange.
  destruct (Js.truthy_opt (FormErrors.get (errors s) name)); auto.
Qed.

Lemma handleSubmit_begin_frame (s : State) :
  showPassword (fst (handleSubmit_begin s)) = showPassword s
  /\ showConfirmPassword (fst (handleSubmit_begin s)) = showConfirmPassword s
  /\ mode (fst (handleSubmit_begin s)) = mode s
  /\ formData (fst (handleSubmit_begin s)) = formData s.
Proof.
  rewrite HandlerFacts.handleSubmit_begin_eq.
  destruct (Nat.eqb _ 0); simpl; auto.
Qed.

Lemma handleSubmit_settle_frame (r : Settled) (s : State) :
  showPassword (fst (handleSubmit_settle r s)) = showPassword s
  /\ showConfirmPassword (fst (handleSubmit_settle r s)) = showConfirmPassword s
  /\ mode (fst (handleSubmit_settle r s)) = mode s
  /\ formData (fst (handleSubmit_settle r s)) = formData s.
Proof. destruct r as [[err|]|]; simpl; auto. Qed.

Lemma resetEffect_frame (p : Props) (s : State) :
  showPassword (resetEffect p s) = showPassword s
  /\ showConfirmPassword (resetEffect p s) = showConfirmPassword s.
Proof. unfold resetEffect. destruct (isOpen p); simpl; auto. Qed.

Lemma step_show (w w' : World) (e : Event) :
  step w e = Some w' ->
  (is_show_password e = false ->
   showPassword (cells w') = showPassword (cells w))
  /\ (is_show_confirm e = false ->
      showConfirmPassword (cells w') = showConfirmPassword (cells w)).
Proof.
  intros H.
  pose proof (handleSubmit_begin_frame (cells w)) as (B1 & B2 & _).
  destruct e; step_inv H; simpl; split; intros Hn; try discriminate Hn;
    try reflexivity;
    try apply resetEffect_frame; try apply handleInputChange_frame;
    try apply handleSubmit_settle_frame;
    repeat match goal with
           | E : handleSubmit_begin _ = _ |- _ => rewrite E in *; clear E
           | E : handleSubmit_settle ?r ?s = _ |- _ =>
               pose proof (handleSubmit_settle_frame r s);
               rewrite E in *; clear E
           end;
    simpl in *; intuition congruence.
Qed.

(** X9: nothing but its own button changes a visibility flag: not an edit, not
    a submission or its outcome, not a switch of the mode and not the
    closing or reopening of the modal.  A password that was revealed stays
    revealed until the button is pressed again. *)
Theorem visibility_only_by_toggle :
  forall (es : list Event) (w w' : World),
    run w es = Some w' ->
    (forallb (fun e => negb (is_show_password e)) es = true ->
     showPassword (cells w') = showPassword (cells w))
    /\ (forallb (fun e => negb (is_show_confirm e)) es = true ->
        showConfirmPassword (cells w') = showConfirmPassword (cells w)).
Proof.
  induction es as [|e es IH]; simpl; intros w w' H.
  - inversion H; auto.
  - destruct (step w e) as [w1|] eqn:E; [|discriminate].
    destruct (IH w1 w' H) as [IH1 IH2].
    destruct (step_show w w1 e E) as [S1 S2].
    split; intros Hall; apply andb_true_iff in Hall as [He Hes];
      apply negb_true_iff in He.
    + rewrite (IH1 Hes). auto.
    + rewrite (IH2 Hes). auto.
Qed.

Lemma visibility_only_by_toggle_witness :
  exists w',
    run world_revealed
      [ClickSwitchMode; Change n_fullName (js "Ann");
       ParentRenders (mkProps false signin);
       ParentRenders (mkProps true signup)] = Some w'
    /\ showPassword (cells w') = showPassword (cells world_revealed).
Proof.
  eexists. split; [reflexivity|].
  refine (proj1 (visibility_only_by_toggle
                   [ClickSwitchMode; Change n_fullName (js "Ann");
                    ParentRenders (mkProps false signin);
                    ParentRenders (mkProps true signup)]
                   world_revealed _ eq_refl) _).
  reflexivity.
Defined.

Lemma step_timers (w w' : World) (e : Event) :
  step w e = Some w' -> is_timer e = false ->
  exists new, timers w' = timers w ++ new.
Proof.
  intros H Hn. destruct e; try discriminate Hn; step_inv H; simpl;
    first [ eexists; reflexivity
          | exists []; symmetry; apply app_nil_r ].
Qed.

(** X10: a timer, once set, is never cancelled: closing the modal, reopening
    it, editing or submitting leave every pending timer in the queue, in
    order; only its firing removes it.  So the [onClose] call of a success
    still comes when the modal was closed by hand and reopened within the
    delay. *)
Theorem timers_never_cancelled :
  forall (es : list Event) (w w' : World),
    run w es = Some w' ->
    forallb (fun e => negb (is_timer e)) es = true ->
    exists new, timers w' = timers w ++ new.
Proof.
  induction es as [|e es IH]; simpl; intros w w' H Hall.
  - inversion H; subst. exists []. symmetry; apply app_nil_r.
  - destruct (step w e) as [w1|] eqn:E; [|discriminate].
    apply andb_true_iff in Hall as [He Hes]. apply negb_true_iff in He.
    destruct (step_timers w w1 e E He) as [n1 H1].
    destruct (IH w1 w' H Hes) as [n2 H2].
    exists (n1 ++ n2). rewrite H2, H1, app_assoc. reflexivity.
Qed.

(** After a success, closing by hand and reopening at once: the timer of
    the success is still there, and fires on the reopened modal. *)
Lemma timers_never_cancelled_witness :
  exists w',
    run world_in_flight
      [CallSettles (Resolved None); ClickClose;
       ParentRenders (mkProps false signin);
       ParentRenders (mkProps true signin); TimePasses 1500] = Some w'
    /\ (exists new, timers w' = timers world_in_flight ++ new)
    /\ option_map closeCalls (step w' TimerFires) = Some 2.
Proof.
  eexists. split; [reflexivity|]. split; [|reflexivity].
  refine (timers_never_cancelled
            [CallSettles (Resolved None); ClickClose;
             ParentRenders (mkProps false signin);
             ParentRenders (mkProps true signin); TimePasses 1500]
            world_in_flight _ eq_refl _).
  reflexivity.
Defined.

Lemma render_shown (p : Props) (s : State) :
  render p s <> Hidden -> isOpen p = true.
Proof. unfold render. destruct (isOpen p); simpl; congruence. Qed.

Lemma Props_eqb_eq (p q : Props) : Props_eqb p q = true -> p = q.
Proof.
  destruct p as [o m], q as [o' m']. unfold Props_eqb; simpl.
  destruct o, o', m, m'; simpl; congruence.
Qed.

Lemma step_closed_blank (w w' : World) (e : Event) :
  closed_blank w -> step w e = Some w' -> closed_blank w'.
Proof.
  unfold closed_blank. intros Hw H.
  pose proof (handleSubmit_settle_frame) as F.
  destruct e; unfold step in H.
  - destruct (Props_eqb p (props w)); inversion H; subst; simpl; auto.
    intros Hc. unfold resetEffect. rewrite Hc. simpl. auto.
  - destruct (isOpen (props w)) eqn:O; inversion H; subst; simpl; rewrite O;
      exact Hw.
  - destruct (render (props w) (cells w)) eqn:R; inversion H; subst; simpl;
      intros Hc; assert (isOpen (props w) = true)
        by (apply (render_shown _ (cells w)); congruence); congruence.
  - destruct (render (props w) (cells w)) eqn:R; inversion H; subst; simpl;
      intros Hc; assert (isOpen (props w) = true)
        by (apply (render_shown _ (cells w)); congruence); congruence.
  - destruct (render (props w) (cells w)) as [| |b su] eqn:R;
      try discriminate. apply render_form in R as (R & _).
    destruct (input_rendered su name); inversion H; subst; simpl. congruence.
  - destruct (render (props w) (cells w)) as [| |b su] eqn:R;
      try discriminate. apply render_form in R as (R & _).
    inversion H; subst; simpl. congruence.
  - destruct (render (props w) (cells w)) as [| |b su] eqn:R;
      try discriminate. apply render_form in R as (R & _).
    destruct su; inversion H; subst; simpl. congruence.
  - destruct (render (props w) (cells w)) as [| |b su] eqn:R;
      try discriminate. apply render_form in R as (R & _).
    inversion H; subst; simpl. congruence.
  - destruct (render (props w) (cells w)) as [| |b su] eqn:R;
      try discriminate. apply render_form in R as (R & _).
    destruct b; try discriminate.
    destruct (handleSubmit_begin (cells w)); inversion H; subst; simpl.
    congruence.
  - destruct (pending w); try discriminate.
    specialize (F r (cells w)). destruct F as (_ & _ & F1 & F2).
    destruct (handleSubmit_settle r (cells w)); inversion H; subst; simpl in *.
    rewrite F1, F2. exact Hw.
  - inversion H; subst; simpl; auto.
  - destruct (timers w); try discriminate.
    destruct (N.leb _ _); inversion H; subst; simpl; auto.
Qed.

Lemma reachable_closed_blank (w : World) : reachable w -> closed_blank w.
Proof.
  induction 1 as [p | w e w' _ IH H].
  - unfold closed_blank, mount; simpl. intros Hc. unfold resetEffect.
    rewrite Hc. simpl. auto.
  - eapply step_closed_blank; eauto.
Qed.

(** X11: while the modal is closed its four fields are empty and its mode is
    the [initialMode] it was given; and it opens with just that: a parent
    that opens the modal and changes [initialMode] in the same render gets
    the form of the old [initialMode], because the effect resets the mode
    only while the modal is closed. *)
Theorem reopened_modal_keeps_old_mode :
  forall (w : World) (im : Mode),
    reachable w ->
    isOpen (props w) = false ->
    formData (cells w) = FormData.blank
    /\ mode (cells w) = initialMode (props w)
    /\ exists w',
         step w (ParentRenders (mkProps true im)) = Some w'
         /\ props w' = mkProps true im
         /\ formData (cells w') = FormData.blank
         /\ mode (cells w') = initialMode (props w).
Proof.
  intros w im Hr Hc. destruct (reachable_closed_blank w Hr Hc) as [Hf Hm].
  split; [exact Hf|]. split; [exact Hm|].
  unfold step, Props_eqb. simpl. rewrite Hc. simpl.
  eexists; split; [reflexivity|]. simpl. auto.
Qed.

Lemma reopened_modal_keeps_old_mode_witness :
  exists w',
    step (mount (mkProps false signin)) (ParentRenders (mkProps true signup))
    = Some w'
    /\ props w' = mkProps true signup
    /\ formData (cells w') = FormData.blank
    /\ mode (cells w') = signin.
Proof.
  exact (proj2 (proj2
           (reopened_modal_keeps_old_mode (mount (mkProps false signin)) signup
              (reachable_mount (mkProps false signin)) eq_refl))).
Defined.



Lemma valid_call (s : State) :
  validation_passes (mode s) (formData s) -> call_valid (call_of s).
Proof.
  unfold validation_passes, call_of, call_valid, email_rule, password_rule,
    fullName_rule.
  intros ((_ & He) & (_ & Hp) & Hs).
  destruct (mode s); [auto|]. destruct (Hs eq_refl) as ((Hn & Hl) & _). auto.
Qed.

Lemma step_sent (w w' : World) (e : Event) :
  step w e = Some w' ->
  (sent w' = sent w /\ pending w' = pending w)
  \/ (sent w' = sent w /\ exists c, pending w = c :: pending w')
  \/ (exists c, call_valid c /\ sent w' = sent w ++ [c]
                /\ pending w' = pending w ++ [c]).
Proof.
  intros H. destruct e; unfold step in H;
    try (step_inv H; simpl; auto; fail).
  - (* SubmitForm *)
    destruct (render (props w) (cells w)) as [| |[|] su]; try discriminate.
    rewrite HandlerFacts.handleSubmit_begin_eq in H.
    destruct (Nat.eqb_spec
                (FormErrors.keys_length
                   (newErrors (mode (cells w)) (formData (cells w)))) 0)
      as [E | E]; inversion H; subst; simpl.
    + right; right. exists (call_of (cells w)). split; [|auto].
      apply valid_call, ValidationFacts.newErrors_empty_iff, E.
    + left. rewrite !app_nil_r. auto.
  - (* CallSettles *)
    destruct (pending w) as [|c rest] eqn:P; try discriminate.
    destruct (handleSubmit_settle r (cells w)); inversion H; subst; simpl.
    right; left. eauto.
Qed.

(** X13: the remote service is never contacted with data the form would
    reject: every call ever made carries an email of the local@domain.tld
    shape and a password of at least 6 characters, and a signUp call also
    a full name that is not blank and has at least 2 characters; and
    every call still awaited is one of the calls made. *)
Theorem sent_calls_are_valid :
  forall w : World,
    reachable w ->
    Forall call_valid (sent w) /\ incl (pending w) (sent w).
Proof.
  induction 1 as [p | w e w' _ [IH1 IH2] H].
  - simpl. split; [constructor | apply incl_nil_l].
  - destruct (step_sent w w' e H)
      as [[-> ->] | [[-> [c Hc]] | (c & Hv & -> & ->)]].
    + auto.
    + split; [exact IH1|]. rewrite Hc in IH2.
      intros x Hx. apply IH2. right; exact Hx.
    + split.
      * apply Forall_app. split; [exact IH1 | constructor; [exact Hv | constructor]].
      * apply incl_app; [apply incl_appl; exact IH2 | apply incl_appr, incl_refl].
Qed.

Lemma sent_calls_are_valid_witness :
  Forall call_valid (sent world_in_flight)
  /\ incl (pending world_in_flight) (sent world_in_flight).
Proof.
  exact (sent_calls_are_valid world_in_flight world_in_flight_reachable).
Defined.










End RuntimeExtras.

(** ** More on the backend *)

Module SqlExtras.

Import Sql AccessSpec SqlNotions SqlFacts.

Local Open Scope string_scope.

Lemma named_false_iff (names : list text) (p : Policy) :
  named names p = false <-> ~ In (polname p) names.
Proof.
  unfold named. split.
  - intros H Hin. assert (existsb (String.eqb (polname p)) names = true).
    { apply existsb_exists. exists (polname p). split; [exact Hin|].
      apply String.eqb_refl. }
    congruence.
  - intros H.
    destruct (existsb (String.eqb (polname p)) names) eqn:E; [|reflexivity].
    apply existsb_exists in E as (n & Hin & E). apply String.eqb_eq in E.
    subst n. contradiction.
Qed.

Lemma exec_all_app (cat : list Policy) (a b : list Statement) :
  exec_all cat (a ++ b)
  = match exec_all cat a with
    | Some cat' => exec_all cat' b
    | None => None
    end.
Proof.
  revert cat; induction a as [|st a IH]; intros cat; simpl; [reflexivity|].
  destruct (exec cat st); [apply IH | reflexivity].
Qed.

(** A run of [DROP POLICY IF EXISTS] removes the policies of those names
    and cannot fail. *)
Lemma exec_drops (names : list text) (cat : list Policy) :
  exec_all cat (map DROP_POLICY_IF_EXISTS names)
  = Some (filter (fun p => negb (named names p)) cat).
Proof.
  revert cat; induction names as [|n names IH]; intros cat; simpl.
  - f_equal. induction cat as [|p cat IHc]; simpl; [|rewrite <- IHc];
      reflexivity.
  - rewrite IH. f_equal. unfold named. simpl.
    induction cat as [|p cat IHc]; simpl; [reflexivity|].
    destruct (String.eqb (polname p) n); simpl; [exact IHc|].
    destruct (existsb (String.eqb (polname p)) names); simpl;
      [exact IHc | rewrite IHc; reflexivity].
Qed.

(** A run of [CREATE POLICY] under names that are new and distinct adds
    the policies in order. *)
Lemma exec_creates (news : list Policy) :
  forall cat,
    (forall q, In q cat -> named (map polname news) q = false) ->
    NoDup (map polname news) ->
    exec_all cat (map CREATE_POLICY news) = Some (cat ++ news)%list.
Proof.
  induction news as [|p news IH]; intros cat Hfresh Hnd; simpl.
  - rewrite app_nil_r. reflexivity.
  - inversion Hnd as [|? ? Hp Hnd']; subst.
    assert (E : existsb (fun q => String.eqb (polname q) (polname p)) cat
                = false).
    { destruct (existsb (fun q => String.eqb (polname q) (polname p)) cat)
        eqn:E; [|reflexivity].
      apply existsb_exists in E as (q & Hq & E). apply String.eqb_eq in E.
      specialize (Hfresh q Hq). apply named_false_iff in Hfresh.
      exfalso; apply Hfresh. simpl. auto. }
    rewrite E. rewrite IH; [rewrite <- app_assoc; reflexivity | | exact Hnd'].
    intros q Hq. apply named_false_iff. apply in_app_or in Hq as [Hq | [<- | []]].
    + specialize (Hfresh q Hq). apply named_false_iff in Hfresh.
      intros Hin; apply Hfresh; simpl; auto.
    + exact Hp.
Qed.

(** Creating a policy under a name in use fails. *)
Lemma exec_create_clash (cat : list Policy) (p : Policy) :
  In (polname p) (map polname cat) -> exec cat (CREATE_POLICY p) = None.
Proof.
  intros H. simpl.
  assert (E : existsb (fun q => String.eqb (polname q) (polname p)) cat = true).
  { apply in_map_iff in H as (q & Hq & Hin). apply existsb_exists.
    exists q. split; [exact Hin|]. apply String.eqb_eq. exact Hq. }
  rewrite E. reflexivity.
Qed.

Lemma filter_idem (f : Policy -> bool) (l : list Policy) :
  filter f (filter f l) = filter f l.
Proof.
  induction l as [|p l IH]; simpl; [reflexivity|].
  destruct (f p) eqn:K; simpl; [rewrite K, IH|]; auto.
Qed.


Lemma later_result (cat : list Policy) :
  exec_all cat (statements m20250808054800_sparkling_wildflower)
  = Some (filter (fun p => negb (named all_names p)) cat
          ++ created (statements m20250808054800_sparkling_wildflower))%list.
Proof.
  change (statements m20250808054800_sparkling_wildflower)
    with (map DROP_POLICY_IF_EXISTS all_names
          ++ map CREATE_POLICY
               (created (statements m20250808054800_sparkling_wildflower)))%list
    at 1.
  rewrite exec_all_app, exec_drops. apply exec_creates.
  - intros q Hq. apply filter_In in Hq as [_ Hq].
    apply negb_true_iff in Hq. exact Hq.
  - simpl. repeat constructor; simpl; intuition discriminate.
Qed.

(** X15: the later migration can be applied to any catalog of policies and
    applied again: it never fails, it keeps the policies of other names,
    it replaces the five it owns by its own, and a second run changes
    nothing. *)
Theorem later_migration_rerunnable :
  forall cat : list Policy,
    exists cat',
      exec_all cat (statements m20250808054800_sparkling_wildflower)
      = Some cat'
      /\ cat' = (filter (fun p => negb (named all_names p)) cat
                 ++ created (statements m20250808054800_sparkling_wildflower))%list
      /\ exec_all cat' (statements m20250808054800_sparkling_wildflower)
         = Some cat'.
Proof.
  intros cat. eexists. split; [apply later_result|]. split; [reflexivity|].
  rewrite later_result. f_equal. rewrite filter_app, filter_idem.
  change (filter (fun p => negb (named all_names p))
            (created (statements m20250808054800_sparkling_wildflower)))
    with (@nil Policy).
  rewrite app_nil_r. reflexivity.
Qed.

Lemma user_names_kept (cat : list Policy) :
  In admin_policy_name (map polname cat) ->
  In admin_policy_name
    (map polname (filter (fun p => negb (named user_policy_names p)) cat)).
Proof.
  intros H. apply in_map_iff in H as (q & Hq & Hin). apply in_map_iff.
  exists q. split; [exact Hq|]. apply filter_In. split; [exact Hin|].
  apply negb_true_iff, named_false_iff. rewrite Hq.
  simpl. unfold admin_policy_name. intuition discriminate.
Qed.

Lemma earlier_result (cat : list Policy) :
  exec_all cat (statements m20250808054401_rough_darkness)
  = if existsb (fun q => String.eqb (polname q) admin_policy_name) cat
    then None
    else Some (filter (fun p => negb (named user_policy_names p)) cat
               ++ created (statements m20250808054401_rough_darkness))%list.
Proof.
  change (statements m20250808054401_rough_darkness)
    with (map DROP_POLICY_IF_EXISTS user_policy_names
          ++ map CREATE_POLICY
               (created (statements m20250808054401_rough_darkness)))%list
    at 1.
  rewrite exec_all_app, exec_drops.
  set (C := filter (fun p => negb (named user_policy_names p)) cat).
  destruct (existsb (fun q => String.eqb (polname q) admin_policy_name) cat)
    eqn:E.
  - change (created (statements m20250808054401_rough_darkness))
      with (firstn 4 (created (statements m20250808054401_rough_darkness))
            ++ [mkPolicy admin_policy_name SELECT authenticated admin_054401])%list.
    rewrite map_app, exec_all_app, exec_creates.
    + simpl exec_all. 
      assert (Hin : In admin_policy_name
                      (map polname
                         (C ++ firstn 4
                                 (created
                                    (statements m20250808054401_rough_darkness))))%list).
      { rewrite map_app. apply in_or_app. left. apply user_names_kept.
        apply existsb_exists in E as (q & Hq & E). apply String.eqb_eq in E.
        apply in_map_iff. eauto. }
      pose proof (exec_create_clash _
                    (mkPolicy admin_policy_name SELECT authenticated admin_054401)
                    Hin) as F.
      simpl in F. simpl. rewrite F. reflexivity.
    + intros q Hq. apply filter_In in Hq as [_ Hq].
      apply negb_true_iff in Hq. exact Hq.
    + simpl. repeat constructor; simpl; intuition discriminate.
  - apply exec_creates.
    + intros q Hq. apply named_false_iff. intros Hin.
      unfold C in Hq. apply filter_In in Hq as [Hq1 Hq2].
      apply negb_true_iff, named_false_iff in Hq2.
      simpl in Hin. simpl in Hq2.
      assert (Ha : polname q <> admin_policy_name).
      { intros Ha. assert (existsb (fun q => String.eqb (polname q)
                                               admin_policy_name) cat = true).
        { apply existsb_exists. exists q. split; [exact Hq1|].
          apply String.eqb_eq. exact Ha. }
        congruence. }
      unfold admin_policy_name in Ha. intuition congruence.
    + simpl. repeat constructor; simpl; intuition discriminate.
Qed.

Lemma admin_name_in (cat : list Policy) :
  existsb (fun q => String.eqb (polname q) admin_policy_name) cat = true
  <-> In admin_policy_name (map polname cat).
Proof.
  rewrite existsb_exists, in_map_iff. split.
  - intros (q & Hq & E). apply String.eqb_eq in E. eauto.
  - intros (q & E & Hq). exists q. split; [exact Hq|].
    apply String.eqb_eq. exact E.
Qed.

(** X16: the earlier migration creates "Admins can view all registrations"
    without dropping it first: it fails exactly on a catalog that already
    has a policy of that name.  So it cannot be applied twice, and it
    cannot be applied after the later migration. *)
Theorem earlier_migration_not_rerunnable :
  forall cat : list Policy,
    (exec_all cat (statements m20250808054401_rough_darkness) = None
     <-> In admin_policy_name (map polname cat))
    /\ (forall cat',
          exec_all cat (statements m20250808054401_rough_darkness) = Some cat' ->
          exec_all cat' (statements m20250808054401_rough_darkness) = None)
    /\ (forall cat',
          exec_all cat (statements m20250808054800_sparkling_wildflower)
          = Some cat' ->
          exec_all cat' (statements m20250808054401_rough_darkness) = None).
Proof.
  assert (Hiff : forall cat,
             exec_all cat (statements m20250808054401_rough_darkness) = None
             <-> In admin_policy_name (map polname cat)).
  { intros cat. rewrite earlier_result, <- admin_name_in.
    destruct (existsb _ cat); split; congruence. }
  intros cat. split; [apply Hiff|]. split; intros cat' H; apply Hiff.
  - rewrite earlier_result in H.
    destruct (existsb _ cat); [discriminate|]. inversion H; subst.
    rewrite map_app. apply in_or_app. right. simpl. auto 10.
  - rewrite later_result in H. inversion H; subst.
    rewrite map_app. apply in_or_app. right. simpl. auto 10.
Qed.

Lemma earlier_migration_not_rerunnable_witness :
  exec_all [ mkPolicy "Admins can view all registrations" SELECT authenticated
               admin_054800 ]
    (statements m20250808054401_rough_darkness) = None.
Proof.
  apply (proj1 (earlier_migration_not_rerunnable
                  [ mkPolicy "Admins can view all registrations" SELECT
                      authenticated admin_054800 ])).
  simpl. auto.
Defined.



(** X18: a registration with neither a user id nor an email (both NULL) is
    out of reach of its owner: whatever the look-ups answer, the
    expressions of the deployed policies accept it for an authenticated
    session only for SELECT and only for an admin (an admin profile found,
    a reserved profile email found, or the role claim of the token), and
    never for INSERT, UPDATE or DELETE. *)
Theorem null_registration_is_admin_only :
  forall (cat : list Policy) (s : Session) (c : Command) (L : Lookups)
         (r : Registration),
    deployed_policies = Some cat ->
    pg_role s = authenticated ->
    user_id r = None ->
    user_email r = None ->
    (accepts cat s c L r = true
     <-> c = SELECT /\ (admin_found L \/ admin_by_token s)).
Proof.
  intros cat s c L r Hcat Hs Hu He.
  rewrite (accepts_deployed cat s c L r Hcat Hs).
  assert (Hown : is_true (holds own_054800 s L r) = false).
  { destruct (is_true (holds own_054800 s L r)) eqn:E; [|reflexivity].
    apply own_054800_holds in E as [(u & _ & E) | (e & _ & E)]; congruence. }
  rewrite Hown. cbn [orb]. destruct c.
  - rewrite admin_054800_holds. tauto.
  - split; [discriminate | intros [E _]; discriminate].
  - split; [discriminate | intros [E _]; discriminate].
  - split; [discriminate | intros [E _]; discriminate].
Qed.

Lemma null_registration_is_admin_only_witness :
  exists cat,
    deployed_policies = Some cat
    /\ (accepts cat admin_session SELECT admin_lookups
          (mkRegistration None None) = true
        <-> SELECT = SELECT
            /\ (admin_found admin_lookups \/ admin_by_token admin_session)).
Proof.
  eexists. split; [apply deployed_policies_eq|].
  apply (null_registration_is_admin_only _ admin_session SELECT admin_lookups
           (mkRegistration None None) deployed_policies_eq);
    reflexivity.
Defined.

Lemma own_054401_holds (s : Session) (L : Lookups) (r : Registration) :
  is_true (holds own_054401 s L r) = true
  <-> registrant s r \/ account_email_found L r.
Proof.
  unfold own_054401, registrant, account_email_found. cbn [holds].
  rewrite is_true_or, orb_true_iff, is_true_eq_uuid, is_true_eq_text.
  split; (intros [H | (e & H1 & H2)]; [left; exact H | right; eauto]).
Qed.

Lemma admin_054401_holds (s : Session) (L : Lookups) (r : Registration) :
  is_true (holds admin_054401 s L r) = true
  <-> reserved (account_email L) \/ profile_role L = Some "admin".
Proof.
  unfold admin_054401, reserved. cbn [holds].
  rewrite is_true_or, orb_true_iff, is_true_reserved, is_true_eq_text.
  split.
  - intros [(e & -> & [-> | ->]) | (e & H1 & H2)]; auto.
    inversion H2; subst. auto.
  - intros [[H | H] | H]; eauto.
Qed.

(** X19: the policy expressions of the earlier migration, which on a table
    without policies creates its five policies.  Whatever the look-ups
    answer, they accept a registration for an authenticated session for
    SELECT exactly when the session is the registrant, the account email
    found (in [auth.users], not in the profile) is the registration's
    email, the account email found is reserved, or the profile role found
    is 'admin'; and for INSERT, UPDATE and DELETE exactly when the session
    is the registrant or the account email found is the registration's.
    The role claim of the token plays no part. *)
Theorem earlier_migration_access :
  forall (s : Session) (L : Lookups) (r : Registration),
    pg_role s = authenticated ->
    exec_all [] (statements m20250808054401_rough_darkness)
    = Some (created (statements m20250808054401_rough_darkness))
    /\ (accepts (created (statements m20250808054401_rough_darkness))
          s SELECT L r = true
        <-> registrant s r \/ account_email_found L r
            \/ reserved (account_email L)
            \/ profile_role L = Some "admin")
    /\ (forall c,
          c = INSERT \/ c = UPDATE \/ c = DELETE ->
          (accepts (created (statements m20250808054401_rough_darkness))
             s c L r = true
           <-> registrant s r \/ account_email_found L r)).
Proof.
  intros s L r Hs. split; [reflexivity|]. unfold accepts, applies.
  cbn [created statements existsb polcmd polrole polexpr].
  rewrite Hs. cbn [Command_eqb PgRole_eqb andb orb]. split.
  - rewrite orb_false_r, orb_true_iff, own_054401_holds, admin_054401_holds.
    tauto.
  - intros c [-> | [-> | ->]]; cbn [Command_eqb PgRole_eqb andb orb];
      rewrite ?orb_false_r; apply own_054401_holds.
Qed.

Lemma earlier_migration_access_witness :
  accepts (created (statements m20250808054401_rough_darkness))
    admin_session SELECT admin_lookups ann_registration = true
  <-> registrant admin_session ann_registration
      \/ account_email_found admin_lookups ann_registration
      \/ reserved (account_email admin_lookups)
      \/ profile_role admin_lookups = Some "admin".
Proof.
  exact (proj1 (proj2 (earlier_migration_access admin_session admin_lookups
                         ann_registration eq_refl))).
Defined.

Lemma insert_auth_user_new (v : Migration) (NEW : AuthUser) (db : Db) :
  existsb (fun p => N.eqb (id p) (au_id NEW)) (user_profiles db) = false ->
  insert_auth_user insert_profile v NEW db
  = inr (mkDb (auth_users db ++ [NEW])
           (user_profiles db
            ++ [new_profile NEW
                  (coalesce (json_text (raw_user_meta_data NEW) "full_name")
                     "")])
           (registrations db) (server_log db))%list.
Proof.
  intros Hf. unfold insert_auth_user, create_user_profile, insert_profile.
  cbn [user_profiles auth_users registrations server_log id role].
  rewrite existsb_snoc_key, Hf. reflexivity.
Qed.

(** X20: the trigger keeps the primary key of the profiles.  After an
    account of an id without profile is created, [user_profiles] has
    exactly one row of that id: it has the account's email, the role
    'user' and the full name of the metadata; the rows that were there are
    untouched, and if [id] was a key of the table before, it still is. *)
Theorem new_account_profile :
  forall (v : Migration) (NEW : AuthUser) (db : Db),
    existsb (fun p => N.eqb (id p) (au_id NEW)) (user_profiles db) = false ->
    exists db' name,
      insert_auth_user insert_profile v NEW db = inr db'
      /\ metadata_full_name (raw_user_meta_data NEW) name
      /\ (forall p, In p (user_profiles db') /\ id p = au_id NEW
                    <-> p = new_profile NEW name)
      /\ (forall p, id p <> au_id NEW ->
                    (In p (user_profiles db') <-> In p (user_profiles db)))
      /\ (well_formed db -> well_formed db').
Proof.
  intros v NEW db Hf. eexists. eexists.
  split; [apply insert_auth_user_new; exact Hf|].
  split; [apply json_full_name|]. cbn [user_profiles].
  assert (Hno : forall p, In p (user_profiles db) -> id p <> au_id NEW).
  { intros p Hp E.
    assert (existsb (fun p => N.eqb (id p) (au_id NEW)) (user_profiles db)
            = true).
    { apply existsb_exists. exists p. split; [exact Hp|].
      apply N.eqb_eq. exact E. }
    congruence. }
  split; [|split].
  - intros p. rewrite in_app_iff. simpl. split.
    + intros [[Hp | [<- | []]] E]; [exfalso; exact (Hno p Hp E) | reflexivity].
    + intros ->. split; [right; left; reflexivity | reflexivity].
  - intros p Hp. rewrite in_app_iff. simpl. split; [|auto].
    intros [H | [<- | []]]; [exact H | exfalso; apply Hp; reflexivity].
  - unfold well_formed. cbn [user_profiles]. intros Hwf.
    rewrite map_app. simpl.
    apply NoDup_app; [exact Hwf | repeat constructor; simpl; tauto |].
    intros k Hk [<- | []].
    apply in_map_iff in Hk as (p & E & Hp). exact (Hno p Hp E).
Qed.

Lemma new_account_profile_witness :
  exists db' name,
    insert_auth_user insert_profile m20250808054800_sparkling_wildflower
      (mkAuthUser 7%N (Some "cy@mail.example")
         (Some [("full_name", Some "Cy")])) db_two = inr db'
    /\ metadata_full_name (Some [("full_name", Some "Cy")]) name
    /\ (forall p, In p (user_profiles db') /\ id p = 7%N
                  <-> p = mkProfile 7%N (Some name) (Some "cy@mail.example")
                            (Some "user")).
Proof.
  destruct (new_account_profile m20250808054800_sparkling_wildflower
              (mkAuthUser 7%N (Some "cy@mail.example")
                 (Some [("full_name", Some "Cy")])) db_two eq_refl)
    as (db' & name & H1 & H2 & H3 & _).
  exists db', name. auto.
Defined.

(** X21: as deployed, the policies cannot be evaluated for an
    authenticated session.  The later migration enables row-level security
    on [user_profiles], and "Admins can view all profiles" selects from
    [user_profiles] itself; so a select on [user_profiles] by the role
    raises an infinite recursion (42P17), and so does every SELECT, INSERT,
    UPDATE and DELETE on a registration, whose policies all select from
    [user_profiles]: no authenticated session is granted anything. *)
Theorem authenticated_commands_raise :
  forall (auth_readable : bool) (sch : Schema) (db : Db) (s : Session)
         (c : Command) (r : Registration),
    deployed_schema auth_readable = Some sch ->
    pg_role s = authenticated ->
    select_user_profiles sch db s = inl infinite_recursion
    /\ access sch db s c r = inl infinite_recursion
    /\ granted db s c r = false.
Proof.
  intros g sch db s c r Hsch Hs. rewrite deployed_schema_eq in Hsch.
  inversion Hsch; subst sch. split; [|split].
  - unfold select_user_profiles. simpl. rewrite Hs. reflexivity.
  - unfold access, sub_selects, select_user_profiles, applies. simpl.
    rewrite Hs. destruct c; reflexivity.
  - unfold granted. rewrite deployed_schema_eq.
    unfold access, sub_selects, select_user_profiles, applies. simpl.
    rewrite Hs. destruct c; reflexivity.
Qed.

Lemma authenticated_commands_raise_witness :
  exists sch,
    deployed_schema false = Some sch
    /\ access sch db_two (mkSession authenticated (Some 2%N) None) SELECT
         ann_registration = inl infinite_recursion.
Proof.
  eexists. split; [apply deployed_schema_eq|].
  apply (authenticated_commands_raise false _ db_two
           (mkSession authenticated (Some 2%N) None) SELECT ann_registration
           (deployed_schema_eq false) eq_refl).
Defined.

End SqlExtras.
